(** * Gamma test runner: the log classifier, the run summary and the JSON flow loader

    A shallow embedding of
    - [src/gui.py]: [consume_test_logs], [create_test_summary],
      [calculate_test_duration] and [add_log]; of the flow builder,
      [builder_add_step], [builder_save_flow] and
      [_shorten_selector_for_name];
    - [src/tests/json_runner.py]: [normalize_prefix] and [main].

    Python values are modelled as follows.
    - A [str] is the list of its Unicode code points ([list N]).
      [str.lower] and [str.upper] are modelled on the ASCII range and leave
      every other code point unchanged.  The strings the classifier looks
      for are ASCII and contain no [k]; the only code points outside ASCII
      whose lower-case form holds an ASCII letter are U+212A (giving [k])
      and U+0130 (giving [i] followed by U+0307, which no searched string
      continues with), so the searches answer as Python's do.  On an
      ASCII string ([is_ascii]) [upper] is exactly [str.upper]; every
      statement whose conclusion depends on the value of the prefix of
      [normalize_prefix] is made for ASCII names.
    - An [int] is a [Z].  Floats are outside the model: the epochs of a
      summary are integers here.
    - A [dict] is an insertion-ordered association list; a JSON object has
      string keys only, but [dict(x)] can build other keys.
    - The process environment is a finite map from names to values.
    - The test engine ([tests/base_test_engine.py]) is not part of these
      sources: [main] ends in the call that hands it the configuration and
      the resolved steps. *)

From Stdlib Require Import ZArith NArith Ascii String Lia.
From stdpp Require Import base option list strings gmap.

Local Open Scope bool_scope.

(** ** Python strings *)
Module Py.

Abbreviation pystr := (list N).

Local Open Scope N_scope.

(** An ASCII literal of the source, as code points. *)
Definition lit (x : string) : pystr :=
  (λ a, N_of_ascii a) <$> list_ascii_of_string x.

Arguments lit : simpl never.

(** [str.isspace] for one code point (CPython's [_PyUnicode_IsWhitespace]). *)
Definition is_space (c : N) : bool :=
  ((9 <=? c) && (c <=? 13)) || ((28 <=? c) && (c <=? 32))
  || (c =? 133) || (c =? 160) || (c =? 5760)
  || ((8192 <=? c) && (c <=? 8202))
  || (c =? 8232) || (c =? 8233) || (c =? 8239) || (c =? 8287)
  || (c =? 12288).

Fixpoint lstrip (s : pystr) : pystr :=
  match s with
  | c :: s' => if is_space c then lstrip s' else s
  | [] => []
  end.

Definition rstrip (s : pystr) : pystr := rev (lstrip (rev s)).

(** [s.strip()] *)
Definition strip (s : pystr) : pystr := rstrip (lstrip s).

Definition lower_cp (c : N) : N :=
  if (65 <=? c) && (c <=? 90) then c + 32 else c.

Definition upper_cp (c : N) : N :=
  if (97 <=? c) && (c <=? 122) then c - 32 else c.

(** [s.lower()] and [s.upper()], on the ASCII letters: exact for the
    strings that satisfy [is_ascii]. *)
Definition lower (s : pystr) : pystr := lower_cp <$> s.
Definition upper (s : pystr) : pystr := upper_cp <$> s.

(** [s.isascii()] *)
Definition is_ascii (s : pystr) : bool := forallb (λ c, c <? 128) s.

(** [s.startswith(p)] *)
Fixpoint startswith (s p : pystr) {struct p} : bool :=
  match p, s with
  | [], _ => true
  | _ :: _, [] => false
  | c :: p', d :: s' => (c =? d) && startswith s' p'
  end.

(** [needle in hay] for two strings. *)
Fixpoint contains (needle hay : pystr) : bool :=
  startswith hay needle
  || match hay with
     | [] => false
     | _ :: hay' => contains needle hay'
     end.

(** [s.replace(a, b)] for one-character [a] and [b]. *)
Definition replace_char (a b : N) (s : pystr) : pystr :=
  (λ c, if c =? a then b else c) <$> s.

(** [needle] occurs in [hay]: the meaning of [contains]. *)
Definition mentions (needle hay : pystr) : Prop :=
  ∃ before after, hay = before ++ needle ++ after.

(** Truth value of a string: non-empty. *)
Definition str_truthy (s : pystr) : bool :=
  match s with [] => false | _ => true end.

(** [s.split(sep)] for a one-character separator: never the empty list. *)
Fixpoint split_on (sep : N) (s : pystr) : list pystr :=
  match s with
  | [] => [[]]
  | c :: s' =>
      if c =? sep then [] :: split_on sep s'
      else match split_on sep s' with
           | h :: t => (c :: h) :: t
           | [] => [[c]]
           end
  end.

Definition digit_val (c : N) : option Z :=
  if (48 <=? c) && (c <=? 57) then Some (Z.of_N (c - 48)) else None.

(** The digits after the first one: single underscores are allowed between
    two digits. *)
Fixpoint int_digits (acc : Z) (s : pystr) : option Z :=
  match s with
  | [] => Some acc
  | c :: s' =>
      if c =? 95 then
        match s' with
        | d :: s'' =>
            match digit_val d with
            | Some v => int_digits (acc * 10 + v) s''
            | None => None
            end
        | [] => None
        end
      else
        match digit_val c with
        | Some v => int_digits (acc * 10 + v) s'
        | None => None
        end
  end.

Definition int_unsigned (s : pystr) : option Z :=
  match s with
  | d :: s' =>
      match digit_val d with
      | Some v => int_digits v s'
      | None => None
      end
  | [] => None
  end.

(** The white space [int] skips around a number: that of [str.isspace]
    without U+001C to U+001F, which [int] refuses. *)
Definition is_int_space (c : N) : bool :=
  is_space c && negb ((28 <=? c) && (c <=? 31)).

Fixpoint int_lstrip (s : pystr) : pystr :=
  match s with
  | c :: s' => if is_int_space c then int_lstrip s' else s
  | [] => []
  end.

Definition int_strip (s : pystr) : pystr :=
  rev (int_lstrip (rev (int_lstrip s))).

(** [int(s)] in base 10, [None] for [ValueError]: surrounding white space,
    an optional sign, ASCII digits.  The decimal digits of other scripts,
    which [int] reads as well, and CPython's limit on the number of
    digits are outside the model: the statements below apply [int] to
    ASCII digits only. *)
Definition int_of_str (s : pystr) : option Z :=
  match int_strip s with
  | 43 :: r => int_unsigned r
  | 45 :: r => Z.opp <$> int_unsigned r
  | r => int_unsigned r
  end.

End Py.

Notation "a ∈? b" := (Py.contains a b) (at level 35, no associativity).

(** ** gui.py: the log consumer *)
Module Gui.
Import Py.

(** The tags [add_log] is called with. *)
Inductive tag := TagError | TagWarning | TagInfo | TagSuccess.

#[global] Instance tag_eq_dec : EqDecision tag.
Proof. solve_decision. Defined.

(** U+2717 BALLOT X and U+274C CROSS MARK. *)
Definition ballot_x : pystr := [10007%N].
Definition cross_mark : pystr := [10060%N].

(** Lines 1886-1898 of [consume_test_logs]: Python's [and] binds tighter
    than [or], as [&&] binds tighter than [||] here. *)
Definition is_explicit_fail (line_text : pystr) : bool :=
  let normalized := strip line_text in
  let lower := lower normalized in
  startswith normalized ballot_x
  || startswith normalized cross_mark
  || lit "] ERROR" ∈? normalized
  || startswith normalized (lit "ERROR")
  || lit " critical step failed" ∈? lower
  || lit "selector" ∈? lower
     && lit "not found" ∈? lower
  || lit "timeout" ∈? lower
     && (lit "failed" ∈? lower || lit "selector" ∈? lower).

(** The state the loop of [consume_test_logs] threads: its two locals and
    the log widget, as the list of the [add_log] calls made. *)
Record consumer := {
  test_failed : bool;
  error_message : option pystr;
  logs : list (tag * pystr)
}.

Definition add_log (message : pystr) (t : tag) (st : consumer) : consumer :=
  {| test_failed := test_failed st;
     error_message := error_message st;
     logs := logs st ++ [(t, message)] |}.

(** The body of the [for] loop, lines 1881-1907. *)
Definition consume_line (st : consumer) (line : pystr) : consumer :=
  if str_truthy line then
    let line_text := strip line in
    if is_explicit_fail line_text then
      add_log line_text TagError
        {| test_failed := true;
           error_message := Some line_text;
           logs := logs st |}
    else if lit "warning" ∈? Py.lower line_text then
      add_log line_text TagWarning st
    else
      add_log line_text TagInfo st
  else st.

(** The tag a line is logged with: the classification of the line. *)
Definition classify_line (line_text : pystr) : tag :=
  if is_explicit_fail line_text then TagError
  else if lit "warning" ∈? Py.lower line_text then TagWarning
  else TagInfo.

(** The rule of lines 1888-1898 as a proposition about the stripped line
    and its lower-case form. *)
Definition error_rule (line_text : pystr) : Prop :=
  let normalized := strip line_text in
  let low := Py.lower normalized in
  ballot_x `prefix_of` normalized
  ∨ cross_mark `prefix_of` normalized
  ∨ lit "ERROR" `prefix_of` normalized
  ∨ mentions (lit "] ERROR") normalized
  ∨ mentions (lit " critical step failed") low
  ∨ (mentions (lit "selector") low ∧ mentions (lit "not found") low)
  ∨ (mentions (lit "timeout") low
     ∧ (mentions (lit "failed") low ∨ mentions (lit "selector") low)).

(** The rule as the specification words it: the phrase
    "critical step failed" anywhere in the line. *)
Definition spec_error_rule (line_text : pystr) : Prop :=
  let normalized := strip line_text in
  let low := Py.lower normalized in
  ballot_x `prefix_of` normalized
  ∨ cross_mark `prefix_of` normalized
  ∨ lit "ERROR" `prefix_of` normalized
  ∨ mentions (lit "] ERROR") normalized
  ∨ mentions (lit "critical step failed") low
  ∨ (mentions (lit "selector") low ∧ mentions (lit "not found") low)
  ∨ (mentions (lit "timeout") low
     ∧ (mentions (lit "failed") low ∨ mentions (lit "selector") low)).

(** [iter(readline, "")]: the lines read up to the first empty read. *)
Fixpoint iter_readline (reads : list pystr) : list pystr :=
  match reads with
  | [] => []
  | l :: reads' => if str_truthy l then l :: iter_readline reads' else []
  end.

Definition consume_loop (reads : list pystr) : consumer :=
  foldl consume_line
    {| test_failed := false; error_message := None; logs := [] |}
    (iter_readline reads).

(** U+2705 WHITE HEAVY CHECK MARK. *)
Definition check_mark : pystr := [9989%N].

(** Lines 1913-1920: the final status, and the log line announcing it. *)
Definition final_status (st : consumer) (returncode : Z) : consumer * pystr :=
  if test_failed st || negb (returncode =? 0)%Z then
    (add_log (cross_mark ++ lit " Test failed!") TagError st, lit "failed")
  else
    (add_log (check_mark ++ lit " Test completed successfully!") TagSuccess st,
     lit "ok").

(** *** The run summary *)

(** One entry of the [steps] array of a [summary.json] left in the run
    directory, with the keys this program reads ([start], [end]) and the
    per-step duration it does not read.  Epochs are integers here. *)
Record step_entry := {
  step_start : option Z;
  step_end : option Z;
  step_durationSec : Z
}.

(** [min(l)] and [max(l)] of a non-empty list, given as head and tail. *)
Definition py_min (x : Z) (l : list Z) : Z := foldl Z.min x l.
Definition py_max (x : Z) (l : list Z) : Z := foldl Z.max x l.

(** What [calculate_test_duration] finds at [log_dir]: no directory given
    or no [summary.json] in it; a file whose reading raises (it does not
    parse, or is not an object with an array of step objects); or the
    [steps] array of the file ([[]] when the key is missing). *)
Inductive summary_file :=
  | NoSummary
  | BadSummary
  | SummarySteps (steps : list step_entry).

(** How the first part of [calculate_test_duration] ends. *)
Inductive summary_path := Returns (d : Z) | Raises | FallsThrough.

(** Lines 1049-1069 of [calculate_test_duration]. *)
Definition duration_from_summary (f : summary_file) : summary_path :=
  match f with
  | SummarySteps steps =>
      match steps with
      | [] => FallsThrough
      | _ :: _ =>
          let start_times := omap step_start steps in
          let end_times := omap step_end steps in
          match start_times, end_times with
          | s :: ss, e :: es =>
              let first_start := py_min s ss in
              let last_end := py_max e es in
              if negb (first_start =? 0)%Z && negb (last_end =? 0)%Z
              then Returns (Z.max (last_end - first_start) 1)
              else FallsThrough
          | _, _ => FallsThrough
          end
      end
  | BadSummary => Raises
  | NoSummary => FallsThrough
  end.

(** Lines 1075-1088: the time stamp of one log line, if it has one. *)
Definition line_timestamp (line : pystr) : option Z :=
  if startswith line (lit "[") && lit "]" ∈? line then
    let time_str := drop 1 (default [] (head (split_on 93 line))) in
    match split_on 58 time_str with
    | [h; m; s] =>
        hours ← int_of_str h;
        minutes ← int_of_str m;
        seconds ← int_of_str s;
        Some (hours * 3600 + minutes * 60 + seconds)%Z
    | _ => None
    end
  else None.

(** Lines 1071-1097: the fallback on the time stamps of the log. *)
Definition duration_from_log (log_content : pystr) : Z :=
  let lines := split_on 10 log_content in
  let timestamps := omap line_timestamp lines in
  match timestamps with
  | first :: _ :: _ =>
      let duration := (default first (last timestamps) - first)%Z in
      let duration := if (duration <? 0)%Z then (duration + 24 * 3600)%Z else duration in
      Z.max duration 1
  | _ => 1%Z
  end.

(** The whole function: the outer [except] turns a raise into 1. *)
Definition calculate_test_duration (log_content : pystr) (f : summary_file)
  : Z :=
  match duration_from_summary f with
  | Returns d => d
  | Raises => 1%Z
  | FallsThrough => duration_from_log log_content
  end.

(** [m] is the least [start] and [M] the greatest [end] that the steps
    record. *)
Definition least_start (steps : list step_entry) (m : Z) : Prop :=
  m ∈ omap step_start steps ∧ Forall (λ v, (m ≤ v)%Z) (omap step_start steps).

Definition greatest_end (steps : list step_entry) (M : Z) : Prop :=
  M ∈ omap step_end steps ∧ Forall (λ v, (v ≤ M)%Z) (omap step_end steps).

#[global] Instance least_start_dec steps m : Decision (least_start steps m).
Proof. unfold least_start. apply _. Defined.

#[global] Instance greatest_end_dec steps M : Decision (greatest_end steps M).
Proof. unfold greatest_end. apply _. Defined.

(** The sum of the per-step durations, which the specification rules
    out as the run's duration. *)
Definition sum_of_durations (steps : list step_entry) : Z :=
  foldr Z.add 0%Z (step_durationSec <$> steps).

(** What [create_test_summary] reads besides its arguments: the two
    variables of the window, the text of the log widget, and the steps of
    the [summary.json] found in the run directory it settles on. *)
Record window := {
  project_var : pystr;
  mode_var : pystr;
  logs_text : pystr;
  run_dir_summary : summary_file
}.

(** The dictionary written to [summary.json], without its time stamp. *)
Record run_summary := {
  status : pystr;
  project : pystr;
  mode : pystr;
  headless : bool;
  durationSec : Z;
  logLines : nat;
  error : option pystr
}.

(** Lines 995-1011 of [create_test_summary]. *)
Definition create_test_summary (w : window) (status : pystr)
    (error_message : option pystr) (project_name : option pystr)
  : run_summary :=
  let log_content := strip (logs_text w) in
  let duration := calculate_test_duration log_content (run_dir_summary w) in
  {| status := status;
     project := match project_name with
                | Some ((_ :: _) as p) => p
                | _ => project_var w
                end;
     mode := mode_var w;
     headless := bool_decide (mode_var w = lit "headless");
     durationSec := duration;
     logLines := if str_truthy log_content
                 then length (split_on 10 log_content) else 0%nat;
     error := match error_message with
              | Some ((_ :: _) as e) => Some e
              | _ => None
              end |}.

(** [consume_test_logs] up to the summary it hands to
    [create_test_summary]: the lines read from the process, its return
    code, and the window as it is once the lines are logged. *)
Definition consume_test_logs (w : window) (reads : list pystr)
    (returncode : Z) : run_summary :=
  let st := consume_loop reads in
  let '(st, test_status) := final_status st returncode in
  let project_name := project_var w in
  create_test_summary w test_status (error_message st) (Some project_name).

End Gui.

(** ** Python values, as [json.load] builds them *)
Module PyVal.
Import Py.

#[warnings="-register-all"]
Inductive pyval :=
  | PNone
  | PBool (b : bool)
  | PInt (z : Z)
  | PStr (s : pystr)
  | PList (l : list pyval)
  | PDict (d : list (pyval * pyval)).

Abbreviation pydict := (list (pyval * pyval)).

(** The exceptions the loader can end with. *)
Inductive exn := TypeError | ValueError | AttributeError.

Inductive result (A : Type) :=
  | Ok (a : A)
  | Raise (e : exn).
Arguments Ok {A} a.
Arguments Raise {A} e.

Definition bind {A B} (r : result A) (k : A → result B) : result B :=
  match r with
  | Ok a => k a
  | Raise e => Raise e
  end.

(** [bool(v)] *)
Definition truthy (v : pyval) : bool :=
  match v with
  | PNone => false
  | PBool b => b
  | PInt z => negb (z =? 0)%Z
  | PStr s => str_truthy s
  | PList l => match l with [] => false | _ => true end
  | PDict d => match d with [] => false | _ => true end
  end.

(** [hash(v)] succeeds. *)
Definition hashable (v : pyval) : bool :=
  match v with
  | PList _ | PDict _ => false
  | _ => true
  end.

(** [a == b] on dictionary keys: [True == 1] and [False == 0]. *)
Definition key_eqb (a b : pyval) : bool :=
  match a, b with
  | PNone, PNone => true
  | PStr s, PStr t => bool_decide (s = t)
  | PBool x, PBool y => bool_decide (x = y)
  | PInt x, PInt y => (x =? y)%Z
  | PBool x, PInt y | PInt y, PBool x => (y =? (if x then 1 else 0))%Z
  | _, _ => false
  end.

(** [v == s] for a string literal [s]. *)
Definition eq_str (v : pyval) (s : pystr) : bool := key_eqb v (PStr s).

(** [d.get(k)]: [None] here is a missing key. *)
Fixpoint dict_get (d : pydict) (k : pyval) : option pyval :=
  match d with
  | [] => None
  | (k', v) :: d' => if key_eqb k' k then Some v else dict_get d' k
  end.

(** [d[k] = v]: an existing key keeps its place. *)
Fixpoint dict_set (d : pydict) (k v : pyval) : pydict :=
  match d with
  | [] => [(k, v)]
  | (k', v') :: d' =>
      if key_eqb k' k then (k', v) :: d' else (k', v') :: dict_set d' k v
  end.

(** [k in d], [d.get(k, dflt)] and [d.setdefault(k, dflt)] for a string
    key. *)
Definition has_key (d : pydict) (k : pystr) : bool :=
  bool_decide (is_Some (dict_get d (PStr k))).

Definition get_default (d : pydict) (k : pystr) (dflt : pyval) : pyval :=
  default dflt (dict_get d (PStr k)).

Definition setdefault (d : pydict) (k : pystr) (dflt : pyval) : pydict :=
  if has_key d k then d else dict_set d (PStr k) dflt.

(** One element of the sequence given to [dict(...)], read as a key and a
    value: the element must be a sequence of length two, and the key must
    be hashable. *)
Definition dict_item (e : pyval) : result (pyval * pyval) :=
  match e with
  | PStr [a; b] => Ok (PStr [a], PStr [b])
  | PStr _ => Raise ValueError
  | PList [k; v] => if hashable k then Ok (k, v) else Raise TypeError
  | PList _ => Raise ValueError
  | PDict [(k1, _); (k2, _)] => Ok (k1, k2)
  | PDict _ => Raise ValueError
  | PNone | PBool _ | PInt _ => Raise TypeError
  end.

Fixpoint dict_of_items (acc : pydict) (l : list pyval) : result pydict :=
  match l with
  | [] => Ok acc
  | e :: l' =>
      bind (dict_item e) (λ kv, dict_of_items (dict_set acc kv.1 kv.2) l')
  end.

(** [dict(v)]: a copy of a dictionary; a sequence of pairs otherwise.  The
    characters of a string are sequences of length one. *)
Definition py_dict (v : pyval) : result pydict :=
  match v with
  | PDict d => Ok d
  | PList l => dict_of_items [] l
  | PStr [] => Ok []
  | PStr (_ :: _) => Raise ValueError
  | PNone | PBool _ | PInt _ => Raise TypeError
  end.

End PyVal.

(** ** tests/json_runner.py *)
Module JsonRunner.
Import Py PyVal.

(** [str.upper().replace("-", "_").replace(" ", "_")] *)
Definition normalize_str (name : pystr) : pystr :=
  replace_char 32 95 (replace_char 45 95 (upper name)).

(** [normalize_prefix]: [name or ""] accepts any false value, and only a
    string has [upper]. *)
Definition normalize_prefix (name : pyval) : result pystr :=
  match (if truthy name then name else PStr []) with
  | PStr s => Ok (normalize_str s)
  | _ => Raise AttributeError
  end.

(** [os.getenv(key, dflt)] *)
Definition getenv (env : gmap pystr pystr) (key dflt : pystr) : pystr :=
  default dflt (env !! key).

Definition default_ua : pystr :=
  lit "Mozilla/5.0 (Macintosh; Intel Mac OS X 10_15_7) AppleWebKit/537.36 (KHTML, like Gecko) Chrome/126.0.0.0 Safari/537.36".

Arguments default_ua : simpl never.

(** How [main] ends: [print] followed by [sys.exit]; an exception nobody
    catches (the interpreter prints the traceback and exits with status
    1); or the call of the engine, which is not part of this file, on the
    configuration and the resolved steps. *)
Inductive outcome :=
  | Exit (code : Z) (printed : pystr)
  | Uncaught (e : exn)
  | RunEngine (project_config : pydict) (resolved_steps : list pydict).

(** Lines 30-34. *)
Definition project_name_of (argv : list pystr) (env : gmap pystr pystr)
  : pystr :=
  match argv !! 2%nat with
  | Some p => p
  | None =>
      getenv env (lit "PROJECT")
        (getenv env (lit "TARGET") (getenv env (lit "BRAND") (lit "UNKNOWN")))
  end.

(** Line 39: the first of the three keys that is present. *)
Definition project_block (data : pydict) : pyval :=
  get_default data (lit "PROJECT_CONFIG")
    (get_default data (lit "TARGET_CONFIG")
       (get_default data (lit "BRAND_CONFIG") (PDict []))).

(** Lines 40-41 on whatever value the block is: a list or a string
    answers [in] but refuses the assignment. *)
Definition ensure_name (block : pyval) (project_name : pystr)
  : result pyval :=
  match block with
  | PDict c =>
      if negb (has_key c (lit "name"))
      then Ok (PDict (dict_set c (PStr (lit "name")) (PStr project_name)))
      else Ok block
  | PList l =>
      if negb (existsb (λ x, eq_str x (lit "name")) l)
      then Raise TypeError else Ok block
  | PStr t =>
      if negb (lit "name" ∈? t) then Raise TypeError else Ok block
  | PNone | PBool _ | PInt _ => Raise TypeError
  end.

(** Line 44: [project_name or project_config.get("name", "")]. *)
Definition prefix_source (block : pyval) (project_name : pystr)
  : result pyval :=
  if str_truthy project_name then Ok (PStr project_name)
  else match block with
       | PDict c => Ok (get_default c (lit "name") (PStr []))
       | _ => Raise AttributeError
       end.

(** Lines 46-48. *)
Definition inject_env (block : pyval) (env : gmap pystr pystr)
    (prefix : pystr) : result pydict :=
  match block with
  | PDict c =>
      let c := setdefault c (lit "email")
                 (PStr (getenv env (prefix ++ lit "_EMAIL") [])) in
      let c := setdefault c (lit "password")
                 (PStr (getenv env (prefix ++ lit "_PASSWORD") [])) in
      let c := setdefault c (lit "user_agent")
                 (PStr (getenv env (prefix ++ lit "_USER_AGENT") default_ua)) in
      Ok c
  | _ => Raise AttributeError
  end.

(** Lines 39-48: the project configuration handed to the engine. *)
Definition load_project_config (data : pydict) (project_name : pystr)
    (env : gmap pystr pystr) : result pydict :=
  bind (ensure_name (project_block data) project_name) (λ block,
  bind (prefix_source block project_name) (λ src,
  bind (normalize_prefix src) (λ prefix,
  inject_env block env prefix))).

(** Lines 59-65: the substitution in the copy [st] of a step. *)
Definition resolve_tokens (project_config st : pydict) : pydict :=
  if eq_str (get_default st (lit "action") PNone) (lit "fill") then
    match get_default st (lit "value") PNone with
    | PStr val =>
        if bool_decide (val = lit "$EMAIL") then
          dict_set st (PStr (lit "value"))
            (get_default project_config (lit "email") (PStr []))
        else if bool_decide (val = lit "$PASSWORD") then
          dict_set st (PStr (lit "value"))
            (get_default project_config (lit "password") (PStr []))
        else st
    | _ => st
    end
  else st.

(** Lines 58-66: one turn of the loop; only [dict(step)] can raise. *)
Definition resolve_step (project_config : pydict) (step : pyval)
  : result pydict :=
  bind (py_dict step) (λ st, Ok (resolve_tokens project_config st)).

Fixpoint resolve_steps (project_config : pydict) (test_steps : list pyval)
  : result (list pydict) :=
  match test_steps with
  | [] => Ok []
  | step :: rest =>
      bind (resolve_step project_config step) (λ st,
      bind (resolve_steps project_config rest) (λ sts, Ok (st :: sts)))
  end.

(** [main], from the parsed document on.  [data] is what [json.load]
    returned. *)
Definition main (argv : list pystr) (env : gmap pystr pystr) (data : pyval)
  : outcome :=
  if (length argv <? 2)%nat then
    Exit 1 (lit "Usage: json_runner.py <flow.json> [PROJECT_NAME]")
  else
    let project_name := project_name_of argv env in
    match data with
    | PDict data =>
        match load_project_config data project_name env with
        | Raise e => Uncaught e
        | Ok project_config =>
            match get_default data (lit "TEST_STEPS") (PList []) with
            | PList ((_ :: _) as test_steps) =>
                match resolve_steps project_config test_steps with
                | Raise e => Uncaught e
                | Ok resolved_steps => RunEngine project_config resolved_steps
                end
            | _ => Exit 2 (lit "No TEST_STEPS found in JSON flow")
            end
        end
    | _ => Uncaught AttributeError
    end.

(** The step list of a document is missing, not a list, or empty. *)
Definition step_list_of (data : pyval) : option pyval :=
  match data with
  | PDict d => dict_get d (PStr (lit "TEST_STEPS"))
  | _ => None
  end.

Definition no_usable_steps (data : pyval) : Prop :=
  match step_list_of data with
  | Some (PList (_ :: _)) => False
  | _ => True
  end.

(** The exit status of the process, when [main] itself decides it. *)
Definition exit_status (o : outcome) : option Z :=
  match o with
  | Exit code _ => Some code
  | Uncaught _ => Some 1%Z
  | RunEngine _ _ => None
  end.

Definition engine_called (o : outcome) : bool :=
  match o with
  | RunEngine _ _ => true
  | _ => false
  end.

(** The step schema of the specification (sections 3 and 6), for a step
    object: a known action; a [url] for [navigate] and a [selector] for
    the other actions; a non-empty [value] for [fill]; a positive
    [timeout] when one is given. *)
Definition is_nonempty_str (v : option pyval) : bool :=
  match v with
  | Some (PStr (_ :: _)) => true
  | _ => false
  end.

Definition spec_step_valid (st : pydict) : bool :=
  match dict_get st (PStr (lit "action")) with
  | Some (PStr a) =>
      if bool_decide (a = lit "navigate") then
        is_nonempty_str (dict_get st (PStr (lit "url")))
      else if bool_decide (a = lit "click") || bool_decide (a = lit "wait") then
        is_nonempty_str (dict_get st (PStr (lit "selector")))
      else if bool_decide (a = lit "fill") then
        is_nonempty_str (dict_get st (PStr (lit "selector")))
        && is_nonempty_str (dict_get st (PStr (lit "value")))
      else false
  | _ => false
  end
  && match dict_get st (PStr (lit "timeout")) with
     | None => true
     | Some (PInt z) => (0 <? z)%Z
     | Some _ => false
     end.

End JsonRunner.


(** ** Documents and runs used as examples *)
Module Examples.
Import Py PyVal Gui JsonRunner.

Definition jstr (x : string) : pyval := PStr (lit x).

Definition jobj (l : list (string * pyval)) : pydict :=
  (λ kv, (PStr (lit kv.1), kv.2)) <$> l.

(** Two overlapping steps: the span is 12 seconds, the durations sum to
    17. *)
Definition overlapping_steps : list step_entry :=
  [ {| step_start := Some 1700000100; step_end := Some 1700000110;
       step_durationSec := 10 |};
    {| step_start := Some 1700000105; step_end := Some 1700000112;
       step_durationSec := 7 |} ]%Z.

Definition argv_acme : list pystr :=
  [lit "tests/json_runner.py"; lit "flow.json"; lit "acme"].

(** Scenario B of the specification: navigate, fill with [$EMAIL],
    click. *)
Definition scenario_b_steps : list pydict :=
  [ jobj [("name", jstr "open"); ("action", jstr "navigate");
          ("url", jstr "https://shop.example/login")];
    jobj [("name", jstr "email"); ("action", jstr "fill");
          ("selector", jstr "#email"); ("value", jstr "$EMAIL")];
    jobj [("name", jstr "submit"); ("action", jstr "click");
          ("selector", jstr "#submit")] ].

Definition scenario_b_block : pydict := jobj [("name", jstr "acme")].

Definition scenario_b_doc : pydict :=
  jobj [("PROJECT_CONFIG", PDict scenario_b_block);
        ("TEST_STEPS", PList (PDict <$> scenario_b_steps))].

Definition scenario_b_env : gmap pystr pystr :=
  {[ lit "ACME_EMAIL" := lit "test@x.com" ]}.

(** A project whose name needs normalizing, and no step list. *)
Definition argv_my_shop : list pystr :=
  [lit "tests/json_runner.py"; lit "flow.json"; lit "my-shop eu"].

Definition no_steps_doc : pydict :=
  jobj [("PROJECT_CONFIG", PDict (jobj [("name", jstr "acme")]));
        ("TEST_STEPS", PList [])].

(** Steps that break the schema of the specification: an unknown action
    without a target, and a fill with an empty value and a negative
    timeout. *)
Definition invalid_steps : list pydict :=
  [ jobj [("name", jstr "jump"); ("action", jstr "teleport")];
    jobj [("name", jstr "email"); ("action", jstr "fill");
          ("selector", jstr "#email"); ("value", jstr "");
          ("timeout", PInt (-5))] ].

Definition invalid_steps_doc : pydict :=
  jobj [("PROJECT_CONFIG", PDict (jobj [("name", jstr "acme")]));
        ("TEST_STEPS", PList (PDict <$> invalid_steps))].

(** A project block with an empty name. *)
Definition empty_name_doc : pydict :=
  jobj [("PROJECT_CONFIG", PDict (jobj [("name", jstr "")]));
        ("TEST_STEPS", PList (PDict <$> scenario_b_steps))].

(** A project block that brings its own credentials. *)
Definition own_credentials_block : pydict :=
  jobj [("name", jstr "acme"); ("email", jstr "qa@acme.test")].

Definition own_credentials_doc : pydict :=
  jobj [("PROJECT_CONFIG", PDict own_credentials_block);
        ("TEST_STEPS", PList (PDict <$> scenario_b_steps))].

End Examples.

(** ** Auxiliary notions for the loader *)
Module RunnerAux.
Import Py PyVal JsonRunner.

(** What [normalize_prefix] does to one character of an ASCII name. *)
Definition norm_cp (ch : N) : N :=
  if (ch =? 45)%N || (ch =? 32)%N then 95%N else upper_cp ch.

(** [dict(step)] succeeds. *)
Definition converts (step : pyval) : Prop := ∃ st, py_dict step = Ok st.

(** The value [normalize_prefix] is applied to when no project
    identifier is given: the document's name, where a false value counts
    as the empty string. *)
Definition name_as_prefix_source (c : pydict) (n : pystr) : Prop :=
  let v := default (PStr []) (dict_get c (PStr (lit "name"))) in
  v = PStr n ∨ (truthy v = false ∧ n = []).

(** The three suffixes of the variables the loader reads. *)
Definition credential_suffixes : list pystr :=
  [lit "_EMAIL"; lit "_PASSWORD"; lit "_USER_AGENT"].

(** The variables that name the project when the command line does
    not. *)
Definition project_variables : list pystr :=
  [lit "PROJECT"; lit "TARGET"; lit "BRAND"].

End RunnerAux.

(** ** gui.py: the text of the log and the files of a run *)
Module LogText.
Import Py Gui.

Local Open Scope N_scope.

(** A field of [strftime("%H:%M:%S")]: two decimal digits. *)
Definition two_digits (n : N) : pystr := [48 + n / 10; 48 + n mod 10].

(** [datetime.now().strftime("%H:%M:%S")] at [h:m:s]. *)
Definition strftime_hms (h m s : N) : pystr :=
  two_digits h ++ lit ":" ++ two_digits m ++ lit ":" ++ two_digits s.

(** Lines 1108-1109 of [add_log]: the text inserted in the log widget at
    clock time [h:m:s]. *)
Definition formatted_message (h m s : N) (message : pystr) : pystr :=
  lit "[" ++ strftime_hms h m s ++ lit "] " ++ message ++ [10].

(** A clock time, as the seconds since midnight. *)
Definition seconds_of_day (h m s : N) : Z :=
  (Z.of_N h * 3600 + Z.of_N m * 60 + Z.of_N s)%Z.

Definition valid_clock (t : N * N * N) : Prop :=
  t.1.1 < 24 ∧ t.1.2 < 60 ∧ t.2 < 60.

(** The text of the widget after a sequence of [add_log] calls, each
    given with its clock time. *)
Definition widget_text (entries : list ((N * N * N) * pystr)) : pystr :=
  mjoin ((λ e, formatted_message e.1.1.1 e.1.1.2 e.1.2 e.2) <$> entries).

(** The line [add_log] writes for an entry, without its newline. *)
Definition entry_line (e : (N * N * N) * pystr) : pystr :=
  lit "[" ++ strftime_hms e.1.1.1 e.1.1.2 e.1.2 ++ lit "] " ++ e.2.

(** [logs_text.get(1.0, tk.END)]: the text widget returns its content
    followed by a newline. *)
Definition widget_get (entries : list ((N * N * N) * pystr)) : pystr :=
  widget_text entries ++ [10].

(** The clock time of an entry, in seconds since midnight. *)
Definition entry_seconds (e : (N * N * N) * pystr) : Z :=
  seconds_of_day e.1.1.1 e.1.1.2 e.1.2.

(** An entry written by [add_log] at a valid clock time, with a message
    of one line. *)
Definition one_line_entry (e : (N * N * N) * pystr) : Prop :=
  valid_clock e.1 ∧ 10 ∉ e.2.

(** Lines 1013-1035 of [create_test_summary]: the names of the files it
    writes in the run directory. *)
Definition summary_files (status : pystr) (error_message : option pystr)
  : list pystr :=
  [lit "summary.json"; lit "test_log.txt"]
  ++ (if bool_decide (status = lit "failed")
         && match error_message with
            | Some (_ :: _) => true
            | _ => false
            end
      then [lit "error_details.txt"] else []).

(** The files [consume_test_logs] has [create_test_summary] write. *)
Definition consume_test_logs_files (reads : list pystr) (returncode : Z)
  : list pystr :=
  let st := consume_loop reads in
  let '(st, test_status) := final_status st returncode in
  summary_files test_status (error_message st).

(** The lines of the process classified as error, stripped, in order. *)
Definition error_lines (reads : list pystr) : list pystr :=
  filter (λ t, is_explicit_fail t = true) (strip <$> iter_readline reads).

End LogText.

(** ** gui.py: the flow builder *)
Module Builder.
Import Py PyVal.

Local Open Scope N_scope.

(** The class [[A-Za-z0-9_-]] of the three patterns. *)
Definition is_name_char (c : N) : bool :=
  ((65 <=? c) && (c <=? 90)) || ((97 <=? c) && (c <=? 122))
  || ((48 <=? c) && (c <=? 57)) || (c =? 95) || (c =? 45).

(** The longest prefix of characters that satisfy [p], and what
    follows it: how a greedy repetition of a character class matches. *)
Fixpoint span (p : N → bool) (s : pystr) : pystr * pystr :=
  match s with
  | c :: s' =>
      if p c then let '(run, rest) := span p s' in (c :: run, rest)
      else ([], s)
  | [] => ([], [])
  end.

(** [re.match(r"^[#.][A-Za-z0-9_-]+", s)]: the matched text. *)
Definition match_id_or_class (s : pystr) : option pystr :=
  match s with
  | c :: s' =>
      if (c =? 35) || (c =? 46) then
        match (span is_name_char s').1 with
        | [] => None
        | run => Some (c :: run)
        end
      else None
  | [] => None
  end.

(** [re.match(r"^\[[^\]]{1,60}\]", s)]: an opening bracket, from 1 to 60
    characters other than the closing bracket, the closing bracket.  The
    class excludes the closing bracket, so the repetition can only stop
    at the first one. *)
Definition match_attribute (s : pystr) : option pystr :=
  match s with
  | c :: s' =>
      if c =? 91 then
        let '(run, rest) := span (λ c, negb (c =? 93)) s' in
        match rest with
        | _ :: _ =>
            if (1 <=? length run)%nat && (length run <=? 60)%nat
            then Some (91 :: run ++ [93]) else None
        | [] => None
        end
      else None
  | [] => None
  end.

(** [re.match(r"^[A-Za-z0-9_-]+\[[^\]]{1,60}\]", s)]: the tag can only
    be the whole run of name characters, since a bracket must follow. *)
Definition match_tag_attribute (s : pystr) : option pystr :=
  let '(tag, rest) := span is_name_char s in
  match tag with
  | [] => None
  | _ :: _ =>
      match match_attribute rest with
      | Some a => Some (tag ++ a)
      | None => None
      end
  end.

(** The characters [re.split(r"\s|>|,", ...)] cuts at. *)
Definition is_cut_char (c : N) : bool :=
  is_space c || (c =? 62) || (c =? 44).

(** [re.split(r"\s|>|,", s, maxsplit=1)[0]] *)
Definition first_token (s : pystr) : pystr :=
  (span (λ c, negb (is_cut_char c)) s).1.

(** [_shorten_selector_for_name] on a string. *)
Definition shorten_selector_for_name (selector : pystr) : pystr :=
  if negb (str_truthy selector) then []
  else
    let s := strip selector in
    match match_id_or_class s with
    | Some m => m
    | None =>
        match match_attribute s with
        | Some m => m
        | None =>
            match match_tag_attribute s with
            | Some m => m
            | None => take 60 (first_token s)
            end
        end
    end.

(** [s.capitalize()] on ASCII text. *)
Definition capitalize (s : pystr) : pystr :=
  match s with
  | [] => []
  | c :: r => upper_cp c :: lower r
  end.

(** Where a message of the builder goes: [builder_error_var] when the
    window has one, [builder_status_var] otherwise. *)
Inductive feedback :=
  | ErrorVar (message : pystr)
  | StatusVar (message : pystr).

Inductive add_outcome :=
  | Refused (f : feedback)
  | Added (step : pydict).

Definition refuse (has_error_var : bool) (long short : pystr)
  : add_outcome :=
  Refused (if has_error_var then ErrorVar ([10060] ++ lit " " ++ long)
           else StatusVar short).

Definition str_eqb (a b : pystr) : bool := bool_decide (a = b).

(** Lines 2169-2219 of [builder_add_step]: the validations and the step
    that is rendered in the list box. *)
Definition builder_add_step (has_error_var : bool)
    (action_var target_var value_var timeout_var : pystr) : add_outcome :=
  let action := strip action_var in
  let target := strip target_var in
  let value := strip value_var in
  let timeout := strip timeout_var in
  if str_eqb action (lit "navigate") && negb (str_truthy target) then
    refuse has_error_var (lit "URL is required for navigate action")
      (lit "URL is required for navigate")
  else if (str_eqb action (lit "click") || str_eqb action (lit "fill")
           || str_eqb action (lit "wait"))
          && negb (str_truthy target) then
    refuse has_error_var
      (lit "Selector is required for click/fill/wait actions")
      (lit "Selector is required")
  else if str_eqb action (lit "fill") && negb (str_truthy value) then
    refuse has_error_var (lit "Value is required for fill action")
      (lit "Value is required for fill")
  else
    let timeout_int :=
      if str_truthy timeout then default 40%Z (int_of_str timeout)
      else 40%Z in
    let short := shorten_selector_for_name target in
    let name :=
      if str_eqb action (lit "navigate")
      then lit "Navigate to " ++ take 50 target
      else capitalize action ++ lit " " ++ short in
    let slug :=
      take 40 (replace_char 47 45 (replace_char 32 45 (lower name))) in
    let step :=
      [ (PStr (lit "name"), PStr name);
        (PStr (lit "action"), PStr action);
        (PStr (if str_eqb action (lit "navigate")
               then lit "url" else lit "selector"), PStr target) ] in
    let step :=
      if str_eqb action (lit "fill")
      then dict_set step (PStr (lit "value")) (PStr value) else step in
    let step := dict_set step (PStr (lit "timeout")) (PInt timeout_int) in
    let step := dict_set step (PStr (lit "critical")) (PBool true) in
    let step := dict_set step (PStr (lit "artifact_tag")) (PStr slug) in
    Added step.

Inductive save_outcome :=
  | NotSaved (f : feedback)
  | Saved (project flow : pystr) (flow_obj : pydict).

(** Lines 2253-2283 of [builder_save_flow]: the validations and the
    object written.  [Saved project flow flow_obj] stands for the dump of
    [flow_obj] to [tests/projects/<project>/<flow>.json]; a failure of
    the dump (file system, encoding) ends in a message and is not
    modelled.  The list box
    holds each step as the text [json.dumps] gave for it; [steps] is
    what [json.loads] reads back from these texts, which for the steps
    of [builder_add_step] (string keys; strings, integers and [True] as
    values) are the steps themselves. *)
Definition builder_save_flow (has_error_var : bool)
    (project_var flow_var : pystr) (steps : list pydict) : save_outcome :=
  let project := strip project_var in
  let flow := strip flow_var in
  if negb (str_truthy project) || negb (str_truthy flow) then
    NotSaved (if has_error_var
              then ErrorVar ([10060] ++ lit " Project and flow name are required")
              else StatusVar (lit "Project and flow name are required"))
  else
    match steps with
    | [] =>
        NotSaved (if has_error_var
                  then ErrorVar ([10060] ++ lit " At least one step is required before saving")
                  else StatusVar (lit "At least one step is required"))
    | _ :: _ =>
        Saved project flow
          [ (PStr (lit "PROJECT_CONFIG"),
             PDict [(PStr (lit "name"), PStr project)]);
            (PStr (lit "TEST_STEPS"), PList (PDict <$> steps)) ]
    end.

End Builder.

(** * Properties *)

Import Py PyVal.

(** ** Strings *)
Section StringFacts.
Implicit Types s p needle hay : pystr.

Lemma startswith_prefix s p : startswith s p = true ↔ p `prefix_of` s.
Proof.
  revert s; induction p as [|c p IH]; intros s; simpl.
  - split; [intros _; apply prefix_nil | done].
  - destruct s as [|d s].
    + split; [done | intros H; by apply prefix_nil_not in H].
    + rewrite andb_true_iff, N.eqb_eq, IH. split.
      * intros [-> H]. by apply prefix_cons.
      * intros H. split; [by apply prefix_cons_inv_1 in H
                         | by apply prefix_cons_inv_2 in H].
Qed.

Lemma contains_mentions needle hay :
  needle ∈? hay = true ↔ mentions needle hay.
Proof.
  induction hay as [|c hay IH]; simpl.
  - rewrite orb_false_r, startswith_prefix. split.
    + intros [k ->]. by exists [], k.
    + intros (a & b & H). symmetry in H.
      apply app_eq_nil in H as [-> H]. apply app_eq_nil in H as [-> _].
      apply prefix_nil.
  - rewrite orb_true_iff, startswith_prefix, IH. split.
    + intros [[k ->] | (a & b & ->)].
      * by exists [], k.
      * by exists (c :: a), b.
    + intros ([|x a] & b & H); simpl in H.
      * left. by exists b.
      * right. injection H as -> ->. by exists a, b.
Qed.

Lemma contains_false needle hay :
  needle ∈? hay = false ↔ ¬ mentions needle hay.
Proof. rewrite <- contains_mentions. by destruct (needle ∈? hay). Qed.

Lemma lstrip_idemp s : lstrip (lstrip s) = lstrip s.
Proof.
  induction s as [|c s IH]; [done|]. simpl.
  destruct (is_space c) eqn:E; [done|]. simpl. by rewrite E.
Qed.

Lemma lower_length s : length (lower s) = length s.
Proof. apply length_fmap. Qed.

Lemma upper_length s : length (upper s) = length s.
Proof. apply length_fmap. Qed.
End StringFacts.

(** ** The log classifier *)
Section Classifier.
Import Gui.
Implicit Types line line_text : pystr.

Lemma mentions_trans (a b c : pystr) :
  mentions a b → mentions b c → mentions a c.
Proof.
  intros (p & q & ->) (p' & q' & ->).
  exists (p' ++ p), (q ++ q'). by rewrite <- !(assoc_L (++)).
Qed.

Lemma is_explicit_fail_rule line_text :
  is_explicit_fail line_text = true ↔ error_rule line_text.
Proof.
  unfold is_explicit_fail, error_rule; cbv zeta.
  rewrite !orb_true_iff, !andb_true_iff, !orb_true_iff.
  rewrite !startswith_prefix, !contains_mentions. tauto.
Qed.

Lemma classify_error line_text :
  classify_line line_text = TagError ↔ is_explicit_fail line_text = true.
Proof.
  unfold classify_line. destruct (is_explicit_fail line_text); [done|].
  by destruct (_ ∈? _).
Qed.

(** Every line read is logged once, stripped, under its classification. *)
Lemma consume_line_logs st line :
  str_truthy line = true →
  logs (consume_line st line)
  = logs st ++ [(classify_line (strip line), strip line)].
Proof.
  intros Hl. unfold consume_line, classify_line. rewrite Hl.
  destruct (is_explicit_fail (strip line)); [done|].
  by destruct (_ ∈? _).
Qed.

Lemma consume_line_failed st line :
  test_failed (consume_line st line)
  = test_failed st || str_truthy line && is_explicit_fail (strip line).
Proof.
  unfold consume_line. destruct (str_truthy line); simpl.
  - destruct (is_explicit_fail (strip line)); simpl.
    + by rewrite orb_true_r.
    + rewrite orb_false_r. by destruct (_ ∈? _).
  - by rewrite orb_false_r.
Qed.

Lemma foldl_consume_failed st (lines : list pystr) :
  test_failed (foldl consume_line st lines)
  = test_failed st
    || existsb (λ l, str_truthy l && is_explicit_fail (strip l)) lines.
Proof.
  revert st; induction lines as [|l lines IH]; intros st; simpl.
  - by rewrite orb_false_r.
  - by rewrite IH, consume_line_failed, orb_assoc.
Qed.

Lemma iter_readline_truthy (reads : list pystr) line :
  line ∈ iter_readline reads → str_truthy line = true.
Proof.
  induction reads as [|l reads IH]; simpl; [by intros ?%elem_of_nil|].
  destruct (str_truthy l) eqn:E; [|by intros ?%elem_of_nil].
  intros [->|?]%elem_of_cons; auto.
Qed.

Lemma consume_loop_failed (reads : list pystr) :
  test_failed (consume_loop reads) = true
  ↔ ∃ line, line ∈ iter_readline reads
            ∧ classify_line (strip line) = TagError.
Proof.
  unfold consume_loop. rewrite foldl_consume_failed; simpl.
  rewrite existsb_exists. split.
  - intros (l & Hin & [_ H]%andb_true_iff).
    exists l. by rewrite classify_error, list_elem_of_In.
  - intros (l & Hin & H). exists l. rewrite <- list_elem_of_In.
    split; [done|]. apply andb_true_iff.
    split; [by eapply iter_readline_truthy | by apply classify_error].
Qed.

Lemma consume_loop_logs (reads : list pystr) :
  logs (consume_loop reads)
  = (λ l, (classify_line (strip l), strip l)) <$> iter_readline reads.
Proof.
  unfold consume_loop.
  assert (∀ lines st, Forall (λ l, str_truthy l = true) lines →
            logs (foldl consume_line st lines)
            = logs st ++ ((λ l, (classify_line (strip l), strip l)) <$> lines))
    as H.
  { induction lines as [|l lines IH]; intros st Hall; simpl.
    - by rewrite app_nil_r.
    - inversion_clear Hall as [|?? Hl Hls].
      rewrite IH, consume_line_logs by done. by rewrite <- (assoc_L (++)). }
  rewrite H; [done|]. apply Forall_forall. apply iter_readline_truthy.
Qed.

(** C1, as amended: a line is classified as error exactly when, once
    stripped, it begins with one of the failure glyphs or with ERROR, or
    contains the token "] ERROR", or when its lower-case form contains
    " critical step failed" (with the space before it), or both
    "selector" and "not found", or "timeout" together with "failed" or
    "selector".  These rules come before the warning rule: a line is a
    warning only when no error rule applies. *)
Theorem classify_line_error_rule line_text :
  (classify_line line_text = TagError ↔ error_rule line_text)
  ∧ (classify_line line_text = TagWarning
     ↔ ¬ error_rule line_text
       ∧ mentions (lit "warning") (lower line_text))
  ∧ (classify_line line_text = TagInfo
     ↔ ¬ error_rule line_text
       ∧ ¬ mentions (lit "warning") (lower line_text)).
Proof.
  rewrite <- is_explicit_fail_rule, <- contains_mentions.
  unfold classify_line.
  destruct (is_explicit_fail line_text), (_ ∈? _);
    intuition (discriminate || congruence).
Qed.

(** C1, as stated, fails on a line that begins with the phrase: the
    specification's rule holds of "Critical step failed", and the line
    is logged as info. *)
Lemma critical_step_failed_at_line_start :
  ¬ (classify_line (lit "Critical step failed") = TagError
     ↔ spec_error_rule (lit "Critical step failed")).
Proof.
  intros [_ H].
  assert (classify_line (lit "Critical step failed") = TagError) as E;
    [|by vm_compute in E].
  apply H. do 4 right. left. apply contains_mentions. by vm_compute.
Qed.

(** C3: "Network errors saved to disk" is logged as info although it
    contains "error"; and no line is an error unless it carries one of
    the explicit markers or mentions "failed" or "selector", whatever
    else it contains. *)
Theorem network_errors_line_is_info :
  classify_line (lit "Network errors saved to disk") = TagInfo
  ∧ mentions (lit "error") (lower (lit "Network errors saved to disk"))
  ∧ ∀ line_text,
      startswith (strip line_text) ballot_x = false →
      startswith (strip line_text) cross_mark = false →
      startswith (strip line_text) (lit "ERROR") = false →
      lit "] ERROR" ∈? strip line_text = false →
      lit "failed" ∈? lower (strip line_text) = false →
      lit "selector" ∈? lower (strip line_text) = false →
      classify_line line_text ≠ TagError.
Proof.
  split; [by vm_compute|]. split; [apply contains_mentions; by vm_compute|].
  intros line_text H1 H2 H3 H4 H5 H6. rewrite classify_error.
  unfold is_explicit_fail; cbv zeta. rewrite H1, H2, H3, H4, H5, H6. simpl.
  rewrite andb_false_r, !orb_false_r. apply not_true_iff_false.
  apply contains_false. intros Hm. apply contains_false in H5. apply H5.
  eapply mentions_trans; [|exact Hm]. apply contains_mentions. by vm_compute.
Qed.

Lemma network_errors_line_is_info_witness :
  classify_line (lit "Network errors saved to disk") ≠ TagError.
Proof.
  apply (proj2 (proj2 network_errors_line_is_info)); by vm_compute.
Defined.

(** C2: the status written to the summary is "failed" exactly when the
    return code is not zero or some line read from the process was
    classified as error, and "ok" otherwise. *)
Theorem final_status_failed_iff w (reads : list pystr) returncode :
  let observed_error :=
    ∃ line, line ∈ iter_readline reads
            ∧ classify_line (strip line) = TagError in
  (status (consume_test_logs w reads returncode) = lit "failed"
   ↔ returncode ≠ 0%Z ∨ observed_error)
  ∧ (status (consume_test_logs w reads returncode) = lit "ok"
     ↔ ¬ (returncode ≠ 0%Z ∨ observed_error)).
Proof.
  intros observed_error. unfold observed_error.
  rewrite <- consume_loop_failed.
  assert (lit "failed" ≠ lit "ok") as Hne by (by vm_compute).
  unfold consume_test_logs, final_status.
  destruct (test_failed (consume_loop reads));
    destruct (returncode =? 0)%Z eqn:E; simpl;
    [apply Z.eqb_eq in E | apply Z.eqb_neq in E
    |apply Z.eqb_eq in E | apply Z.eqb_neq in E];
    intuition (discriminate || congruence).
Qed.
End Classifier.

(** ** The duration of a run *)
Section Duration.
Import Gui Examples.

Lemma py_min_spec x (l : list Z) :
  py_min x l ∈ x :: l ∧ Forall (λ v, (py_min x l ≤ v)%Z) (x :: l).
Proof.
  unfold py_min. revert x; induction l as [|y l IH]; intros x; simpl.
  - split; [apply list_elem_of_here | by repeat constructor].
  - destruct (IH (Z.min x y)) as [Hin Hall]. split.
    + apply elem_of_cons in Hin as [E|Hin].
      * rewrite E. destruct (Z.min_spec x y) as [[_ ->]|[_ ->]].
        -- apply list_elem_of_here.
        -- apply list_elem_of_further, list_elem_of_here.
      * by do 2 apply list_elem_of_further.
    + inversion_clear Hall as [|?? Hm Hl].
      repeat constructor; [lia | lia | done].
Qed.

Lemma py_max_spec x (l : list Z) :
  py_max x l ∈ x :: l ∧ Forall (λ v, (v ≤ py_max x l)%Z) (x :: l).
Proof.
  unfold py_max. revert x; induction l as [|y l IH]; intros x; simpl.
  - split; [apply list_elem_of_here | by repeat constructor].
  - destruct (IH (Z.max x y)) as [Hin Hall]. split.
    + apply elem_of_cons in Hin as [E|Hin].
      * rewrite E. destruct (Z.max_spec x y) as [[_ ->]|[_ ->]].
        -- apply list_elem_of_further, list_elem_of_here.
        -- apply list_elem_of_here.
      * by do 2 apply list_elem_of_further.
    + inversion_clear Hall as [|?? Hm Hl].
      repeat constructor; [lia | lia | done].
Qed.

Lemma least_start_py_min steps m s ss :
  omap step_start steps = s :: ss → least_start steps m → py_min s ss = m.
Proof.
  intros E [Hin Hall]. rewrite E in Hin, Hall.
  destruct (py_min_spec s ss) as [Hin' Hall'].
  rewrite Forall_forall in Hall, Hall'.
  apply Z.le_antisymm; auto.
Qed.

Lemma greatest_end_py_max steps M e es :
  omap step_end steps = e :: es → greatest_end steps M → py_max e es = M.
Proof.
  intros E [Hin Hall]. rewrite E in Hin, Hall.
  destruct (py_max_spec e es) as [Hin' Hall'].
  rewrite Forall_forall in Hall, Hall'.
  apply Z.le_antisymm; auto.
Qed.

Lemma duration_from_summary_epochs steps m M :
  least_start steps m → greatest_end steps M → m ≠ 0%Z → M ≠ 0%Z →
  duration_from_summary (SummarySteps steps) = Returns (Z.max (M - m) 1).
Proof.
  intros Hm HM Hm0 HM0. unfold duration_from_summary.
  destruct steps as [|st steps].
  { destruct Hm as [Hin _]. by apply elem_of_nil in Hin. }
  destruct (omap step_start (st :: steps)) as [|s ss] eqn:Es.
  { destruct Hm as [Hin _]. rewrite Es in Hin. by apply elem_of_nil in Hin. }
  destruct (omap step_end (st :: steps)) as [|e es] eqn:Ee.
  { destruct HM as [Hin _]. rewrite Ee in Hin. by apply elem_of_nil in Hin. }
  rewrite (least_start_py_min _ _ _ _ Es Hm).
  rewrite (greatest_end_py_max _ _ _ _ Ee HM).
  apply Z.eqb_neq in Hm0, HM0. by rewrite Hm0, HM0.
Qed.

(** C8, as amended: when the summary in the run directory records steps
    whose least start [m] and greatest end [M] are both non-zero, the
    duration written to the run record is [M - m], raised to 1 when the
    difference is smaller; the per-step durations play no part. *)
Theorem duration_is_span_at_least_one
    w run_status error_message project_name steps m M :
  run_dir_summary w = SummarySteps steps →
  least_start steps m → greatest_end steps M → m ≠ 0%Z → M ≠ 0%Z →
  durationSec (create_test_summary w run_status error_message project_name)
  = Z.max (M - m) 1.
Proof.
  intros Hw Hm HM Hm0 HM0. simpl.
  unfold calculate_test_duration.
  by rewrite Hw, (duration_from_summary_epochs _ _ _ Hm HM Hm0 HM0).
Qed.

Lemma duration_is_span_at_least_one_witness :
  durationSec
    (create_test_summary
       {| project_var := lit "acme"; mode_var := lit "headless";
          logs_text := []; run_dir_summary := SummarySteps overlapping_steps |}
       (lit "ok") None (Some (lit "acme")))
  = 12%Z
  ∧ sum_of_durations overlapping_steps = 17%Z.
Proof.
  split; [|reflexivity].
  apply (duration_is_span_at_least_one _ _ _ _ overlapping_steps
           1700000100 1700000112);
    [reflexivity | compute_done | compute_done | lia | lia].
Defined.

(** C8, as stated, fails on a run that starts and ends within one
    second: the span is 0 and the record says 1. *)
Lemma same_second_run_duration :
  let steps := [ {| step_start := Some 1700000100%Z;
                    step_end := Some 1700000100%Z;
                    step_durationSec := 0 |} ] in
  let w := {| project_var := lit "acme"; mode_var := lit "headless";
              logs_text := []; run_dir_summary := SummarySteps steps |} in
  least_start steps 1700000100 ∧ greatest_end steps 1700000100
  ∧ durationSec (create_test_summary w (lit "ok") None (Some (lit "acme")))
    ≠ (1700000100 - 1700000100)%Z.
Proof. repeat split; [compute_done .. | by vm_compute]. Qed.
End Duration.

(** ** Dictionaries with string keys *)
Section DictFacts.
Implicit Types d : pydict.
Implicit Types k : pystr.

Lemma key_eqb_str (x : pyval) k : key_eqb x (PStr k) = true ↔ x = PStr k.
Proof.
  destruct x; simpl; try (split; [discriminate | congruence]).
  rewrite bool_decide_eq_true. split; congruence.
Qed.

Lemma dict_get_set d k k' v :
  dict_get (dict_set d (PStr k) v) (PStr k')
  = if decide (k = k') then Some v else dict_get d (PStr k').
Proof.
  induction d as [|[k0 v0] d IH]; simpl.
  - rewrite bool_decide_decide. by destruct (decide (k = k')).
  - destruct (key_eqb k0 (PStr k)) eqn:E; simpl.
    + apply key_eqb_str in E as ->. simpl. rewrite bool_decide_decide.
      by destruct (decide (k = k')).
    + destruct (key_eqb k0 (PStr k')) eqn:E'; [|done].
      apply key_eqb_str in E' as ->. simpl in E.
      apply bool_decide_eq_false in E.
      destruct (decide (k = k')); [congruence | done].
Qed.

Lemma dict_get_set_eq d k v :
  dict_get (dict_set d (PStr k) v) (PStr k) = Some v.
Proof. rewrite dict_get_set. by destruct (decide (k = k)). Qed.

Lemma dict_get_set_ne d k k' v :
  k ≠ k' → dict_get (dict_set d (PStr k) v) (PStr k') = dict_get d (PStr k').
Proof. intros. rewrite dict_get_set. by destruct (decide (k = k')). Qed.

Lemma has_key_true d k : has_key d k = true ↔ is_Some (dict_get d (PStr k)).
Proof. unfold has_key. apply bool_decide_eq_true. Qed.

(** [setdefault] never replaces a value. *)
Lemma dict_get_setdefault d k k' v :
  dict_get (setdefault d k v) (PStr k')
  = if decide (k = k') then Some (default v (dict_get d (PStr k)))
    else dict_get d (PStr k').
Proof.
  unfold setdefault. destruct (has_key d k) eqn:H.
  - apply has_key_true in H as [x E].
    destruct (decide (k = k')) as [<-|]; [by rewrite E | done].
  - assert (dict_get d (PStr k) = None) as E.
    { destruct (dict_get d (PStr k)) eqn:E; [|done].
      assert (has_key d k = true) by (apply has_key_true; rewrite E; eauto).
      congruence. }
    by rewrite dict_get_set, E.
Qed.

Lemma get_default_get d k dflt :
  get_default d k dflt = default dflt (dict_get d (PStr k)).
Proof. done. Qed.
End DictFacts.

(** ** The JSON flow loader *)
Section Loader.
Import JsonRunner RunnerAux Examples.
Implicit Types argv : list pystr.
Implicit Types env : gmap pystr pystr.
Implicit Types data c cfg st : pydict.

(** Two literal keys are told apart by computation. *)
Ltac lit_keys :=
  repeat match goal with
    | |- context [decide (lit ?a = lit ?b)] =>
        let E := fresh "E" in
        destruct (decide (lit a = lit b)) as [E|E];
        [try (by vm_compute in E) | try (by exfalso; apply E)]
    end.

Lemma normalize_str_pointwise (name : pystr) :
  normalize_str name
  = (λ ch, if (ch =? 45)%N || (ch =? 32)%N then 95%N else upper_cp ch)
      <$> name.
Proof.
  unfold normalize_str, replace_char, upper.
  rewrite <- !list_fmap_compose. apply list_fmap_ext. intros _ ch _. simpl.
  unfold upper_cp.
  destruct (97 <=? ch)%N eqn:E1, (ch <=? 122)%N eqn:E2; simpl;
    destruct (ch =? 45)%N eqn:E3, (ch =? 32)%N eqn:E4; simpl;
    repeat match goal with
      | H : (_ <=? _)%N = true |- _ => apply N.leb_le in H
      | H : (_ <=? _)%N = false |- _ => apply N.leb_gt in H
      | H : (_ =? _)%N = true |- _ => apply N.eqb_eq in H
      | H : (_ =? _)%N = false |- _ => apply N.eqb_neq in H
      end; try lia; subst; try done.
  all: destruct (ch - 32 =? 45)%N eqn:E5, (ch - 32 =? 32)%N eqn:E6;
    repeat match goal with
      | H : (_ =? _)%N = true |- _ => apply N.eqb_eq in H
      | H : (_ =? _)%N = false |- _ => apply N.eqb_neq in H
      end; try lia; try done.
Qed.

(** The prefix has no hyphen and no space left. *)
Lemma normalize_str_clean (name : pystr) :
  Forall (λ ch, ch ≠ 45%N ∧ ch ≠ 32%N) (normalize_str name).
Proof.
  rewrite normalize_str_pointwise. apply Forall_fmap, Forall_true.
  intros ch. simpl. unfold upper_cp.
  destruct (ch =? 45)%N eqn:E3, (ch =? 32)%N eqn:E4; simpl; try lia.
  apply N.eqb_neq in E3, E4.
  destruct (97 <=? ch)%N eqn:E1, (ch <=? 122)%N eqn:E2; simpl; try lia.
  apply N.leb_le in E1, E2. lia.
Qed.

Lemma load_project_config_dict data c project_name env :
  project_block data = PDict c → project_name ≠ [] →
  let prefix := normalize_str project_name in
  ∃ cfg,
    load_project_config data project_name env = Ok cfg
    ∧ dict_get cfg (PStr (lit "name"))
      = Some (default (PStr project_name) (dict_get c (PStr (lit "name"))))
    ∧ dict_get cfg (PStr (lit "email"))
      = Some (default (PStr (getenv env (prefix ++ lit "_EMAIL") []))
                (dict_get c (PStr (lit "email"))))
    ∧ dict_get cfg (PStr (lit "password"))
      = Some (default (PStr (getenv env (prefix ++ lit "_PASSWORD") []))
                (dict_get c (PStr (lit "password"))))
    ∧ dict_get cfg (PStr (lit "user_agent"))
      = Some (default (PStr (getenv env (prefix ++ lit "_USER_AGENT") default_ua))
                (dict_get c (PStr (lit "user_agent")))).
Proof.
  intros Hblock Hpn prefix.
  assert (str_truthy project_name = true) as Ht by (by destruct project_name).
  unfold load_project_config. rewrite Hblock.
  set (c' := if negb (has_key c (lit "name"))
             then dict_set c (PStr (lit "name")) (PStr project_name) else c).
  assert (ensure_name (PDict c) project_name = Ok (PDict c')) as ->.
  { unfold ensure_name, c'. by destruct (has_key c (lit "name")). }
  simpl. unfold prefix_source. rewrite Ht. simpl.
  unfold normalize_prefix. simpl. rewrite Ht. simpl.
  fold prefix. eexists. split; [reflexivity|].
  assert (∀ k, k ≠ lit "name" →
            dict_get c' (PStr k) = dict_get c (PStr k)) as Hother.
  { intros k Hk. unfold c'. destruct (has_key c (lit "name")); simpl; [done|].
    by rewrite dict_get_set_ne. }
  assert (dict_get c' (PStr (lit "name"))
          = Some (default (PStr project_name) (dict_get c (PStr (lit "name")))))
    as Hname.
  { unfold c'. destruct (has_key c (lit "name")) eqn:E; simpl.
    - apply has_key_true in E as [x ->]. done.
    - rewrite dict_get_set_eq.
      destruct (dict_get c (PStr (lit "name"))) eqn:E'; [|done].
      assert (has_key c (lit "name") = true)
        by (apply has_key_true; rewrite E'; eauto).
      congruence. }
  rewrite !dict_get_setdefault. lit_keys.
  rewrite (Hother (lit "email")), (Hother (lit "password")),
    (Hother (lit "user_agent")) by done.
  by rewrite Hname.
Qed.

Lemma resolve_steps_objects cfg (steps : list pydict) :
  resolve_steps cfg (PDict <$> steps) = Ok (resolve_tokens cfg <$> steps).
Proof.
  induction steps as [|st steps IH]; [done|].
  rewrite !fmap_cons. cbn [resolve_steps]. by rewrite IH.
Qed.

(** A document with a loadable project block and a non-empty list of
    step objects reaches the engine, with every step resolved. *)
Lemma main_runs_engine argv env data cfg (steps : list pydict) :
  (2 ≤ length argv)%nat →
  load_project_config data (project_name_of argv env) env = Ok cfg →
  get_default data (lit "TEST_STEPS") (PList []) = PList (PDict <$> steps) →
  steps ≠ [] →
  main argv env (PDict data) = RunEngine cfg (resolve_tokens cfg <$> steps).
Proof.
  intros Hargv Hcfg Hsteps Hne. unfold main.
  assert ((length argv <? 2)%nat = false) as -> by (apply Nat.ltb_ge; lia).
  rewrite Hcfg, Hsteps. destruct steps as [|st steps]; [done|].
  pose proof (resolve_steps_objects cfg (st :: steps)) as H.
  rewrite fmap_cons in H |- *. cbv beta iota. by rewrite H.
Qed.

(** An ASCII name gives an ASCII prefix. *)
Lemma normalize_str_ascii (name : pystr) :
  is_ascii name = true → is_ascii (normalize_str name) = true.
Proof.
  rewrite normalize_str_pointwise. unfold is_ascii.
  rewrite !forallb_forall. intros H ch [x [<- Hx]]%in_map_iff.
  specialize (H x Hx). apply N.ltb_lt in H. apply N.ltb_lt.
  unfold upper_cp.
  destruct (x =? 45)%N, (x =? 32)%N; simpl; try lia.
  destruct (97 <=? x)%N, (x <=? 122)%N; simpl; lia.
Qed.

(** *** The project block *)

Lemma ensure_name_dict c project_name :
  ∃ c', ensure_name (PDict c) project_name = Ok (PDict c')
        ∧ dict_get c' (PStr (lit "name"))
          = Some (default (PStr project_name) (dict_get c (PStr (lit "name"))))
        ∧ ∀ k, k ≠ lit "name" → dict_get c' (PStr k) = dict_get c (PStr k).
Proof.
  unfold ensure_name. destruct (has_key c (lit "name")) eqn:E; simpl.
  - exists c. split; [done|]. apply has_key_true in E as [x ->]. by split.
  - eexists. split; [reflexivity|]. split.
    + rewrite dict_get_set_eq.
      destruct (dict_get c (PStr (lit "name"))) eqn:E'; [|done].
      assert (has_key c (lit "name") = true)
        by (apply has_key_true; rewrite E'; eauto).
      congruence.
    + intros k Hk. by rewrite dict_get_set_ne.
Qed.

Lemma inject_env_lookups c env prefix :
  ∃ cfg, inject_env (PDict c) env prefix = Ok cfg
    ∧ dict_get cfg (PStr (lit "name")) = dict_get c (PStr (lit "name"))
    ∧ dict_get cfg (PStr (lit "email"))
      = Some (default (PStr (getenv env (prefix ++ lit "_EMAIL") []))
                (dict_get c (PStr (lit "email"))))
    ∧ dict_get cfg (PStr (lit "password"))
      = Some (default (PStr (getenv env (prefix ++ lit "_PASSWORD") []))
                (dict_get c (PStr (lit "password"))))
    ∧ dict_get cfg (PStr (lit "user_agent"))
      = Some (default (PStr (getenv env (prefix ++ lit "_USER_AGENT") default_ua))
                (dict_get c (PStr (lit "user_agent")))).
Proof.
  eexists. split; [reflexivity|].
  rewrite !dict_get_setdefault. by lit_keys.
Qed.

(** The configuration loads for every project identifier when the block
    is an object, provided that, for an empty identifier, the document's
    name can serve as the source of the prefix. *)
Lemma load_project_config_any_name data c project_name env n :
  project_block data = PDict c →
  (project_name ≠ [] ∧ n = project_name)
  ∨ (project_name = [] ∧ name_as_prefix_source c n) →
  let prefix := normalize_str n in
  ∃ cfg,
    load_project_config data project_name env = Ok cfg
    ∧ dict_get cfg (PStr (lit "name"))
      = Some (default (PStr project_name) (dict_get c (PStr (lit "name"))))
    ∧ dict_get cfg (PStr (lit "email"))
      = Some (default (PStr (getenv env (prefix ++ lit "_EMAIL") []))
                (dict_get c (PStr (lit "email"))))
    ∧ dict_get cfg (PStr (lit "password"))
      = Some (default (PStr (getenv env (prefix ++ lit "_PASSWORD") []))
                (dict_get c (PStr (lit "password"))))
    ∧ dict_get cfg (PStr (lit "user_agent"))
      = Some (default (PStr (getenv env (prefix ++ lit "_USER_AGENT") default_ua))
                (dict_get c (PStr (lit "user_agent")))).
Proof.
  intros Hblock Hn prefix. unfold load_project_config. rewrite Hblock.
  destruct (ensure_name_dict c project_name) as (c' & -> & Hname & Hother).
  simpl.
  assert (bind (prefix_source (PDict c') project_name) normalize_prefix
          = Ok prefix) as Hp.
  { unfold prefix_source. destruct Hn as [[Hpn ->]|[-> Hsrc]].
    - destruct project_name as [|ch pn]; [done|]. done.
    - simpl. unfold get_default. rewrite Hname.
      unfold name_as_prefix_source in Hsrc. simpl in Hsrc.
      set (v := default (PStr []) (dict_get c (PStr (lit "name")))) in *.
      assert (default (PStr []) (Some v) = v) as -> by done.
      unfold normalize_prefix.
      destruct Hsrc as [-> | [-> ->]]; [|done].
      simpl. by destruct n. }
  unfold bind in Hp |- *.
  destruct (prefix_source (PDict c') project_name) as [src|]; [|done].
  rewrite Hp. cbv beta iota.
  destruct (inject_env_lookups c' env prefix)
    as (cfg & Hinj & Hn' & He & Hpw & Hua).
  exists cfg. split; [exact Hinj|].
  rewrite Hn', He, Hpw, Hua, Hname.
  by rewrite !Hother by (by vm_compute).
Qed.

(** C4: the prefix is the name in upper case with every hyphen and space
    replaced by an underscore, the name being the project identifier or,
    when that is empty, the name of the document's project block (line
    44); the email, the password and the user agent that the document
    does not give are read from [PREFIX_EMAIL], [PREFIX_PASSWORD] and
    [PREFIX_USER_AGENT], an unset variable giving the empty string, or
    the fixed browser string for the user agent; and the flow is loaded
    whatever the environment holds.  The name is an ASCII string, on
    which [upper_cp] is what [str.upper] does. *)
Theorem credentials_resolved_from_environment argv env data c (name : pystr)
    (steps : list pydict) :
  (2 ≤ length argv)%nat →
  project_block data = PDict c →
  (project_name_of argv env ≠ [] ∧ name = project_name_of argv env)
  ∨ (project_name_of argv env = [] ∧ name_as_prefix_source c name) →
  is_ascii name = true →
  get_default data (lit "TEST_STEPS") (PList []) = PList (PDict <$> steps) →
  steps ≠ [] →
  let prefix :=
    (λ ch, if (ch =? 45)%N || (ch =? 32)%N then 95%N else upper_cp ch)
      <$> name in
  normalize_prefix (PStr name) = Ok prefix
  ∧ is_ascii prefix = true
  ∧ ∃ cfg,
      main argv env (PDict data) = RunEngine cfg (resolve_tokens cfg <$> steps)
      ∧ dict_get cfg (PStr (lit "email"))
        = Some (default (PStr (default [] (env !! (prefix ++ lit "_EMAIL"))))
                  (dict_get c (PStr (lit "email"))))
      ∧ dict_get cfg (PStr (lit "password"))
        = Some (default (PStr (default [] (env !! (prefix ++ lit "_PASSWORD"))))
                  (dict_get c (PStr (lit "password"))))
      ∧ dict_get cfg (PStr (lit "user_agent"))
        = Some (default
                  (PStr (default default_ua (env !! (prefix ++ lit "_USER_AGENT"))))
                  (dict_get c (PStr (lit "user_agent")))).
Proof.
  intros Hargv Hblock Hname Hascii Hsteps Hne prefix.
  assert (prefix = normalize_str name) as Hp
    by (symmetry; apply normalize_str_pointwise).
  split; [|split].
  - unfold normalize_prefix. destruct name as [|ch name]; [done|]. simpl.
    by rewrite Hp.
  - rewrite Hp. by apply normalize_str_ascii.
  - destruct (load_project_config_any_name data c _ env name Hblock Hname)
      as (cfg & Hcfg & _ & He & Hpw & Hua).
    exists cfg. rewrite Hp. split; [|done].
    by apply main_runs_engine.
Qed.

Lemma credentials_resolved_from_environment_witness :
  normalize_prefix (PStr (lit "my-shop eu")) = Ok (lit "MY_SHOP_EU")
  ∧ ∃ cfg,
      main argv_my_shop ∅ (PDict scenario_b_doc)
      = RunEngine cfg (resolve_tokens cfg <$> scenario_b_steps)
      ∧ dict_get cfg (PStr (lit "email")) = Some (PStr [])
      ∧ dict_get cfg (PStr (lit "password")) = Some (PStr [])
      ∧ dict_get cfg (PStr (lit "user_agent")) = Some (PStr default_ua).
Proof.
  destruct (credentials_resolved_from_environment
              argv_my_shop ∅ scenario_b_doc scenario_b_block
              (lit "my-shop eu") scenario_b_steps)
    as (Hprefix & _ & cfg & Hmain & He & Hpw & Hua);
    [simpl; lia | reflexivity | left; split; [by vm_compute | reflexivity]
    | reflexivity | reflexivity | done |].
  split; [exact Hprefix|]. exists cfg. split; [exact Hmain|].
  rewrite He, Hpw, Hua. repeat split; vm_compute; reflexivity.
Defined.

(** What the substitution does to one step. *)
Lemma resolve_tokens_cases cfg st :
  let is_fill := eq_str (get_default st (lit "action") PNone) (lit "fill") in
  let value := dict_get st (PStr (lit "value")) in
  (is_fill = true → value = Some (PStr (lit "$EMAIL")) →
   resolve_tokens cfg st
   = dict_set st (PStr (lit "value")) (get_default cfg (lit "email") (PStr [])))
  ∧ (is_fill = true → value = Some (PStr (lit "$PASSWORD")) →
     resolve_tokens cfg st
     = dict_set st (PStr (lit "value"))
         (get_default cfg (lit "password") (PStr [])))
  ∧ (is_fill = false
     ∨ (value ≠ Some (PStr (lit "$EMAIL"))
        ∧ value ≠ Some (PStr (lit "$PASSWORD"))) →
     resolve_tokens cfg st = st).
Proof.
  intros is_fill value. unfold is_fill, value, resolve_tokens, get_default.
  repeat split.
  - by intros -> ->.
  - by intros -> ->.
  - intros [->|[H1 H2]]; [done|].
    destruct (eq_str _ _); [|done].
    destruct (dict_get st (PStr (lit "value"))) as [[| | |val| |]|];
      simpl; try done.
    rewrite !bool_decide_eq_false_2; [done | congruence | congruence].
Qed.

(** C5: in a fill step whose value is exactly [$EMAIL] or [$PASSWORD]
    the loader puts the email or the password of the loaded project
    configuration; every other step is handed over as it is; and the
    engine is called on the list so resolved, the substitution being
    complete before any step runs. *)
Theorem fill_tokens_resolved_at_load argv env data cfg (steps : list pydict) :
  (2 ≤ length argv)%nat →
  load_project_config data (project_name_of argv env) env = Ok cfg →
  get_default data (lit "TEST_STEPS") (PList []) = PList (PDict <$> steps) →
  steps ≠ [] →
  let email := get_default cfg (lit "email") (PStr []) in
  let password := get_default cfg (lit "password") (PStr []) in
  main argv env (PDict data) = RunEngine cfg (resolve_tokens cfg <$> steps)
  ∧ ∀ st,
      let is_fill :=
        eq_str (get_default st (lit "action") PNone) (lit "fill") in
      let value := dict_get st (PStr (lit "value")) in
      (is_fill = true → value = Some (PStr (lit "$EMAIL")) →
       resolve_tokens cfg st = dict_set st (PStr (lit "value")) email
       ∧ dict_get (resolve_tokens cfg st) (PStr (lit "value")) = Some email)
      ∧ (is_fill = true → value = Some (PStr (lit "$PASSWORD")) →
         resolve_tokens cfg st = dict_set st (PStr (lit "value")) password
         ∧ dict_get (resolve_tokens cfg st) (PStr (lit "value"))
           = Some password)
      ∧ (is_fill = false
         ∨ (value ≠ Some (PStr (lit "$EMAIL"))
            ∧ value ≠ Some (PStr (lit "$PASSWORD"))) →
         resolve_tokens cfg st = st).
Proof.
  intros Hargv Hcfg Hsteps Hne email password.
  split; [by apply main_runs_engine|].
  intros st is_fill value.
  destruct (resolve_tokens_cases cfg st) as (H1 & H2 & H3).
  fold email in H1. fold password in H2. split; [|split].
  - intros F V. split; [by apply H1|].
    rewrite (H1 F V). apply dict_get_set_eq.
  - intros F V. split; [by apply H2|].
    rewrite (H2 F V). apply dict_get_set_eq.
  - apply H3.
Qed.

(** Scenario B: with [ACME_EMAIL=test@x.com] the engine receives the
    fill step with that address as its value. *)
Lemma fill_tokens_resolved_at_load_witness :
  ∃ cfg r0 r1 r2,
    main argv_acme scenario_b_env (PDict scenario_b_doc)
    = RunEngine cfg [r0; r1; r2]
    ∧ dict_get r1 (PStr (lit "value")) = Some (PStr (lit "test@x.com")).
Proof.
  destruct (load_project_config_dict scenario_b_doc scenario_b_block
              (lit "acme") scenario_b_env)
    as (cfg & Hcfg & _ & He & _); [reflexivity | by vm_compute |].
  destruct (fill_tokens_resolved_at_load
              argv_acme scenario_b_env scenario_b_doc cfg scenario_b_steps)
    as (Hmain & Hst); [simpl; lia | exact Hcfg | reflexivity | done |].
  exists cfg. do 3 eexists. split; [exact Hmain|].
  destruct (Hst (jobj [("name", jstr "email"); ("action", jstr "fill");
                       ("selector", jstr "#email"); ("value", jstr "$EMAIL")]))
    as (Hemail & _).
  destruct Hemail as [_ ->]; [reflexivity | reflexivity |].
  unfold get_default. rewrite He. vm_compute. reflexivity.
Defined.

(** C6: on a document whose step list is missing, not a list, or empty,
    [main] never calls the engine and the process exits with a non-zero
    status: with status 2 and the message "No TEST_STEPS found in JSON
    flow" whenever the project block itself loads, and on an uncaught
    exception otherwise. *)
Theorem missing_steps_fail_before_engine argv env (data : pyval) :
  (2 ≤ length argv)%nat →
  no_usable_steps data →
  engine_called (main argv env data) = false
  ∧ (∃ code, exit_status (main argv env data) = Some code ∧ code ≠ 0%Z)
  ∧ (main argv env data
     = Exit 2 (lit "No TEST_STEPS found in JSON flow")
     ∨ ∃ e, main argv env data = Uncaught e)
  ∧ ∀ d cfg,
      data = PDict d →
      load_project_config d (project_name_of argv env) env = Ok cfg →
      main argv env data = Exit 2 (lit "No TEST_STEPS found in JSON flow").
Proof.
  intros Hargv Hno. unfold main.
  assert ((length argv <? 2)%nat = false) as -> by (apply Nat.ltb_ge; lia).
  destruct data as [| | | | |d];
    try (split; [done|]; split; [by exists 1%Z|];
         split; [right; by eexists | done]).
  unfold no_usable_steps, step_list_of in Hno.
  destruct (load_project_config d (project_name_of argv env) env)
    as [cfg|e] eqn:Hload.
  - assert (match get_default d (lit "TEST_STEPS") (PList []) with
            | PList ((_ :: _) as test_steps) =>
                match resolve_steps cfg test_steps with
                | Raise e => Uncaught e
                | Ok resolved_steps => RunEngine cfg resolved_steps
                end
            | _ => Exit 2 (lit "No TEST_STEPS found in JSON flow")
            end = Exit 2 (lit "No TEST_STEPS found in JSON flow")) as ->.
    { unfold get_default.
      destruct (dict_get d (PStr (lit "TEST_STEPS"))) as [[| | | |[|??]|]|];
        done. }
    split; [done|]. split; [by exists 2%Z|]. split; [by left | done].
  - split; [done|]. split; [by exists 1%Z|].
    split; [right; by eexists|]. intros d0 cfg [= <-] H. congruence.
Qed.

Lemma missing_steps_fail_before_engine_witness :
  engine_called (main argv_acme ∅ (PDict no_steps_doc)) = false
  ∧ main argv_acme ∅ (PDict no_steps_doc)
    = Exit 2 (lit "No TEST_STEPS found in JSON flow").
Proof.
  destruct (missing_steps_fail_before_engine argv_acme ∅ (PDict no_steps_doc))
    as (Hengine & _ & _ & Hexit); [simpl; lia | by vm_compute |].
  split; [exact Hengine|].
  destruct (load_project_config_dict no_steps_doc
              (jobj [("name", jstr "acme")]) (lit "acme") ∅)
    as (cfg & Hcfg & _); [reflexivity | by vm_compute |].
  by apply (Hexit no_steps_doc cfg).
Defined.

(** The substitution leaves alone everything the schema looks at, apart
    from a value it only replaces when that value was a token. *)
Lemma resolve_tokens_keeps_invalid cfg st :
  spec_step_valid st = false →
  spec_step_valid (resolve_tokens cfg st) = false.
Proof.
  intros Hbad. unfold resolve_tokens.
  destruct (eq_str (get_default st (lit "action") PNone) (lit "fill"))
    eqn:Hfill; [|done].
  apply key_eqb_str in Hfill. unfold get_default in Hfill |- *.
  destruct (dict_get st (PStr (lit "action"))) as [a|] eqn:Ha;
    [simpl in Hfill; subst a | done].
  assert (∀ v,
    dict_get st (PStr (lit "value")) = Some (PStr (lit "$EMAIL"))
    ∨ dict_get st (PStr (lit "value")) = Some (PStr (lit "$PASSWORD")) →
    spec_step_valid (dict_set st (PStr (lit "value")) v) = false) as Hset.
  { intros v Hv. unfold spec_step_valid in Hbad |- *.
    rewrite !dict_get_set. lit_keys. rewrite Ha in Hbad |- *.
    rewrite bool_decide_eq_false_2 in Hbad |- * by (by vm_compute).
    assert (bool_decide (lit "fill" = lit "click")
            || bool_decide (lit "fill" = lit "wait") = false) as Hcw
      by (by vm_compute).
    rewrite Hcw in Hbad |- *.
    rewrite bool_decide_eq_true_2 in Hbad |- * by done.
    assert (is_nonempty_str (dict_get st (PStr (lit "value"))) = true) as Hne
      by (by destruct Hv as [-> | ->]).
    rewrite Hne, andb_true_r in Hbad.
    apply andb_false_iff in Hbad as [-> | ->]; [done|].
    by rewrite andb_false_r. }
  destruct (dict_get st (PStr (lit "value"))) as [[| | |val| |]|] eqn:Hv;
    simpl; try done.
  destruct (bool_decide (val = lit "$EMAIL")) eqn:E1.
  { apply bool_decide_eq_true in E1 as ->. apply Hset. by left. }
  destruct (bool_decide (val = lit "$PASSWORD")) eqn:E2; [|done].
  apply bool_decide_eq_true in E2 as ->. apply Hset. by right.
Qed.

(** What the loader hands over for one step: the step itself, or, for a
    fill step whose value is a token, the step with that value
    replaced. *)
Lemma resolve_tokens_substitutes cfg st :
  resolve_tokens cfg st = st
  ∨ (eq_str (get_default st (lit "action") PNone) (lit "fill") = true
     ∧ dict_get st (PStr (lit "value")) = Some (PStr (lit "$EMAIL"))
     ∧ resolve_tokens cfg st
       = dict_set st (PStr (lit "value"))
           (get_default cfg (lit "email") (PStr [])))
  ∨ (eq_str (get_default st (lit "action") PNone) (lit "fill") = true
     ∧ dict_get st (PStr (lit "value")) = Some (PStr (lit "$PASSWORD"))
     ∧ resolve_tokens cfg st
       = dict_set st (PStr (lit "value"))
           (get_default cfg (lit "password") (PStr []))).
Proof.
  destruct (resolve_tokens_cases cfg st) as (H1 & H2 & H3).
  cbv zeta in H1, H2, H3.
  destruct (eq_str (get_default st (lit "action") PNone) (lit "fill"));
    [|left; apply H3; by left].
  destruct (dict_get st (PStr (lit "value"))) as [[| | |val| |]|];
    try (left; apply H3; right; split; discriminate).
  destruct (decide (val = lit "$EMAIL")) as [->|E1].
  { right. left. auto. }
  destruct (decide (val = lit "$PASSWORD")) as [->|E2].
  { right. right. auto. }
  left. apply H3. right. split; congruence.
Qed.

(** C7, as amended: the loader checks no step against the schema.  When
    the project configuration loads and the step list is a non-empty
    list of step objects, the engine receives one step for each step of
    the document, in document order: the step itself, or, for a fill
    step whose value is [$EMAIL] or [$PASSWORD], the step with that
    value replaced by the email or the password of the configuration;
    and a step that breaks the schema still breaks it when the engine
    receives it. *)
Theorem invalid_steps_reach_engine argv env data cfg (steps : list pydict) :
  (2 ≤ length argv)%nat →
  load_project_config data (project_name_of argv env) env = Ok cfg →
  get_default data (lit "TEST_STEPS") (PList []) = PList (PDict <$> steps) →
  steps ≠ [] →
  ∃ resolved,
    main argv env (PDict data) = RunEngine cfg resolved
    ∧ Forall2
        (λ st r,
           (r = st
            ∨ (eq_str (get_default st (lit "action") PNone) (lit "fill") = true
               ∧ dict_get st (PStr (lit "value")) = Some (PStr (lit "$EMAIL"))
               ∧ r = dict_set st (PStr (lit "value"))
                       (get_default cfg (lit "email") (PStr [])))
            ∨ (eq_str (get_default st (lit "action") PNone) (lit "fill") = true
               ∧ dict_get st (PStr (lit "value"))
                 = Some (PStr (lit "$PASSWORD"))
               ∧ r = dict_set st (PStr (lit "value"))
                       (get_default cfg (lit "password") (PStr []))))
           ∧ (spec_step_valid st = false → spec_step_valid r = false))
        steps resolved.
Proof.
  intros Hargv Hcfg Hsteps Hne.
  exists (resolve_tokens cfg <$> steps).
  split; [by apply main_runs_engine|].
  apply Forall2_fmap_r, Forall2_same_length_lookup_2; [done|].
  intros i st st' Hi Hi'. assert (st' = st) as -> by congruence.
  split; [apply resolve_tokens_substitutes|].
  apply resolve_tokens_keeps_invalid.
Qed.

Lemma invalid_steps_reach_engine_witness :
  ∃ cfg r0 r1,
    main argv_acme ∅ (PDict invalid_steps_doc) = RunEngine cfg [r0; r1]
    ∧ spec_step_valid r0 = false ∧ spec_step_valid r1 = false.
Proof.
  destruct (load_project_config_dict invalid_steps_doc
              (jobj [("name", jstr "acme")]) (lit "acme") ∅)
    as (cfg & Hcfg & _); [reflexivity | by vm_compute |].
  destruct (invalid_steps_reach_engine argv_acme ∅ invalid_steps_doc cfg
              invalid_steps)
    as (resolved & Hmain & H2);
    [simpl; lia | exact Hcfg | reflexivity | done |].
  apply Forall2_cons_inv_l in H2 as (r0 & rs & [_ H0] & H2 & ->).
  apply Forall2_cons_inv_l in H2 as (r1 & rs' & [_ H1] & H2 & ->).
  apply Forall2_nil_inv_l in H2 as ->.
  exists cfg, r0, r1. split; [exact Hmain|].
  split; [by apply H0 | by apply H1].
Defined.

(** C7, as stated, fails: both steps of this document break the schema
    and the engine is called on them. *)
Lemma invalid_steps_are_not_rejected :
  Forall (λ st, spec_step_valid st = false) invalid_steps
  ∧ ∃ cfg, main argv_acme ∅ (PDict invalid_steps_doc)
           = RunEngine cfg invalid_steps.
Proof.
  split; [by repeat constructor|]. eexists. by vm_compute.
Qed.

(** C9, as amended: when the project block has no [name] key, the
    configuration's name is the caller's project identifier; a name the
    block gives is kept as it is. *)
Theorem project_name_falls_back_when_absent data c project_name env :
  project_block data = PDict c →
  project_name ≠ [] →
  ∃ cfg,
    load_project_config data project_name env = Ok cfg
    ∧ (dict_get c (PStr (lit "name")) = None →
       dict_get cfg (PStr (lit "name")) = Some (PStr project_name))
    ∧ (∀ v, dict_get c (PStr (lit "name")) = Some v →
            dict_get cfg (PStr (lit "name")) = Some v).
Proof.
  intros Hblock Hpn.
  destruct (load_project_config_dict data c _ env Hblock Hpn)
    as (cfg & Hcfg & Hname & _).
  exists cfg. split; [done|]. rewrite Hname.
  split; [by intros -> | by intros v ->].
Qed.

Lemma project_name_falls_back_when_absent_witness :
  ∃ cfg,
    load_project_config (jobj [("TEST_STEPS", PList [])]) (lit "acme") ∅
    = Ok cfg
    ∧ dict_get cfg (PStr (lit "name")) = Some (PStr (lit "acme")).
Proof.
  destruct (project_name_falls_back_when_absent
              (jobj [("TEST_STEPS", PList [])]) [] (lit "acme") ∅)
    as (cfg & Hcfg & Habsent & _); [reflexivity | by vm_compute |].
  exists cfg. split; [exact Hcfg | by apply Habsent].
Defined.

(** C9, as stated, fails: the empty name of this document's project
    block reaches the engine, although the caller names the project. *)
Lemma empty_document_name_is_kept :
  ∃ cfg resolved,
    main argv_acme ∅ (PDict empty_name_doc) = RunEngine cfg resolved
    ∧ dict_get cfg (PStr (lit "name")) = Some (PStr []).
Proof.
  eexists _, _. split; [by vm_compute | by vm_compute].
Qed.

(** C10: an email, a password or a user agent that the project block
    of the document gives is the one in the loaded configuration,
    whatever the environment holds. *)
Theorem document_credentials_are_kept data c project_name env key v :
  project_block data = PDict c →
  project_name ≠ [] →
  key ∈ [lit "email"; lit "password"; lit "user_agent"] →
  dict_get c (PStr key) = Some v →
  ∃ cfg,
    load_project_config data project_name env = Ok cfg
    ∧ dict_get cfg (PStr key) = Some v.
Proof.
  intros Hblock Hpn Hkey Hv.
  destruct (load_project_config_dict data c _ env Hblock Hpn)
    as (cfg & Hcfg & _ & He & Hpw & Hua).
  exists cfg. split; [done|].
  repeat (apply elem_of_cons in Hkey as [->|Hkey]);
    [rewrite He | rewrite Hpw | rewrite Hua | by apply elem_of_nil in Hkey];
    by rewrite Hv.
Qed.

Lemma document_credentials_are_kept_witness :
  ∃ cfg,
    load_project_config own_credentials_doc (lit "acme")
      {[ lit "ACME_EMAIL" := lit "other@x.com" ]} = Ok cfg
    ∧ dict_get cfg (PStr (lit "email")) = Some (jstr "qa@acme.test").
Proof.
  apply (document_credentials_are_kept own_credentials_doc
           own_credentials_block);
    [reflexivity | by vm_compute | compute_done | reflexivity].
Defined.
End Loader.

(** ** More on the loader: prefixes, blocks and malformed steps *)
Section LoaderEdges.
Import JsonRunner RunnerAux Examples.
Implicit Types argv : list pystr.
Implicit Types env : gmap pystr pystr.
Implicit Types data c cfg st : pydict.

Ltac n_cases :=
  repeat match goal with
    | H : (_ <=? _)%N = true |- _ => apply N.leb_le in H
    | H : (_ <=? _)%N = false |- _ => apply N.leb_gt in H
    | H : (_ =? _)%N = true |- _ => apply N.eqb_eq in H
    | H : (_ =? _)%N = false |- _ => apply N.eqb_neq in H
    end.

Ltac lit_ne :=
  repeat match goal with
    | |- context [decide (lit ?a = lit ?b)] =>
        let E := fresh "E" in
        destruct (decide (lit a = lit b)) as [E|E];
        [try (by vm_compute in E) | try (by exfalso; apply E)]
    end.

Lemma upper_cp_cases ch :
  (97 ≤ ch ≤ 122 ∧ upper_cp ch = ch - 32)%N
  ∨ (¬ (97 ≤ ch ≤ 122) ∧ upper_cp ch = ch)%N.
Proof.
  unfold upper_cp.
  destruct (97 <=? ch)%N eqn:E1, (ch <=? 122)%N eqn:E2; simpl; n_cases;
    [left | right ..]; split; (lia || done).
Qed.

Lemma lower_cp_cases ch :
  (65 ≤ ch ≤ 90 ∧ lower_cp ch = ch + 32)%N
  ∨ (¬ (65 ≤ ch ≤ 90) ∧ lower_cp ch = ch)%N.
Proof.
  unfold lower_cp.
  destruct (65 <=? ch)%N eqn:E1, (ch <=? 90)%N eqn:E2; simpl; n_cases;
    [left | right ..]; split; (lia || done).
Qed.

Lemma norm_cp_cases ch :
  ((ch = 45 ∨ ch = 32) ∧ norm_cp ch = 95)%N
  ∨ (ch ≠ 45 ∧ ch ≠ 32 ∧ norm_cp ch = upper_cp ch)%N.
Proof.
  unfold norm_cp.
  destruct (ch =? 45)%N eqn:E1, (ch =? 32)%N eqn:E2; simpl; n_cases; auto.
Qed.

Lemma normalize_str_norm_cp (name : pystr) :
  normalize_str name = norm_cp <$> name.
Proof. apply normalize_str_pointwise. Qed.

(** X1: for an ASCII name, the prefix has the length of the name, is
    ASCII, and holds no hyphen, no space and no lower-case letter. *)
Theorem normalize_str_shape (name : pystr) :
  is_ascii name = true →
  length (normalize_str name) = length name
  ∧ is_ascii (normalize_str name) = true
  ∧ Forall (λ ch, ch ≠ 45 ∧ ch ≠ 32 ∧ ¬ (97 ≤ ch ≤ 122))%N
      (normalize_str name).
Proof.
  intros Hascii. split; [|split; [by apply normalize_str_ascii|]].
  - rewrite normalize_str_norm_cp. apply length_fmap.
  - rewrite normalize_str_norm_cp.
    apply Forall_fmap, Forall_true. intros ch. simpl.
    destruct (norm_cp_cases ch) as [[_ ->]|(H1 & H2 & ->)]; [lia|].
    destruct (upper_cp_cases ch) as [[H ->]|[H ->]]; lia.
Qed.

Lemma normalize_str_shape_witness :
  length (normalize_str (lit "my-shop eu")) = 10%nat
  ∧ normalize_str (lit "my-shop eu") = lit "MY_SHOP_EU".
Proof.
  destruct (normalize_str_shape (lit "my-shop eu")) as (Hlen & _);
    [reflexivity|].
  split; [exact Hlen | reflexivity].
Defined.

(** X2: for an ASCII name, normalizing is idempotent and blind to the
    case of the letters: the name, its upper-case form, its lower-case
    form and the prefix itself all give the same prefix. *)
Theorem normalize_str_idempotent (name : pystr) :
  is_ascii name = true →
  normalize_str (normalize_str name) = normalize_str name
  ∧ normalize_str (upper name) = normalize_str name
  ∧ normalize_str (lower name) = normalize_str name.
Proof.
  intros _.
  rewrite !normalize_str_norm_cp. unfold upper, lower.
  rewrite <- !list_fmap_compose.
  split; [|split]; apply list_fmap_ext; intros _ ch _; simpl.
  - destruct (norm_cp_cases ch) as [[_ E]|(H1 & H2 & E)]; rewrite E.
    + done.
    + destruct (norm_cp_cases (upper_cp ch)) as [[H _]|(_ & _ & ->)].
      * destruct (upper_cp_cases ch) as [[? Eu]|[? Eu]]; rewrite Eu in H; lia.
      * destruct (upper_cp_cases ch) as [[? Eu]|[? Eu]]; rewrite Eu;
          destruct (upper_cp_cases (upper_cp ch)) as [[? Ev]|[? Ev]];
          rewrite Eu in *; try done; lia.
  - destruct (upper_cp_cases ch) as [[Hr Eu]|[Hr Eu]]; rewrite Eu; [|done].
    destruct (norm_cp_cases ch) as [[H _]|(_ & _ & ->)]; [lia|].
    destruct (norm_cp_cases (ch - 32)) as [[H _]|(_ & _ & ->)]; [lia|].
    rewrite Eu.
    destruct (upper_cp_cases (ch - 32)) as [[? Ev]|[? Ev]]; [lia | done].
  - destruct (lower_cp_cases ch) as [[Hr El]|[Hr El]]; rewrite El; [|done].
    destruct (norm_cp_cases ch) as [[H _]|(_ & _ & ->)]; [lia|].
    destruct (norm_cp_cases (ch + 32)) as [[H _]|(_ & _ & ->)]; [lia|].
    destruct (upper_cp_cases (ch + 32)) as [[? Ev]|[? Ev]]; [|lia].
    destruct (upper_cp_cases ch) as [[? Eu]|[? Eu]]; [lia|].
    rewrite Ev, Eu. lia.
Qed.

Lemma normalize_str_idempotent_witness :
  normalize_str (lit "MY_SHOP_EU") = lit "MY_SHOP_EU"
  ∧ normalize_str (lit "MY-SHOP EU") = lit "MY_SHOP_EU"
  ∧ normalize_str (lit "my-shop eu") = lit "MY_SHOP_EU".
Proof.
  destruct (normalize_str_idempotent (lit "My-Shop eu")) as (H1 & H2 & H3);
    [reflexivity|].
  split; [exact H1 | split; [exact H2 | exact H3]].
Defined.

(** X3: without a project identifier the prefix comes from the
    document's name, here an ASCII string: the variables read are those
    named after the name the project block gives (and [_EMAIL],
    [_PASSWORD], [_USER_AGENT] when it gives none). *)
Theorem empty_identifier_uses_document_name data c env n :
  project_block data = PDict c →
  name_as_prefix_source c n →
  is_ascii n = true →
  ∃ cfg,
    load_project_config data [] env = Ok cfg
    ∧ dict_get cfg (PStr (lit "email"))
      = Some (default
                (PStr (default [] (env !! (normalize_str n ++ lit "_EMAIL"))))
                (dict_get c (PStr (lit "email"))))
    ∧ dict_get cfg (PStr (lit "password"))
      = Some (default
                (PStr (default [] (env !! (normalize_str n ++ lit "_PASSWORD"))))
                (dict_get c (PStr (lit "password")))).
Proof.
  intros Hblock Hsrc _.
  destruct (load_project_config_any_name data c [] env n Hblock)
    as (cfg & Hcfg & _ & He & Hpw & _); [by right|].
  by exists cfg.
Qed.

Lemma empty_identifier_uses_document_name_witness :
  ∃ cfg,
    load_project_config scenario_b_doc [] scenario_b_env = Ok cfg
    ∧ dict_get cfg (PStr (lit "email")) = Some (PStr (lit "test@x.com")).
Proof.
  destruct (empty_identifier_uses_document_name
              scenario_b_doc scenario_b_block scenario_b_env (lit "acme"))
    as (cfg & Hcfg & He & _); [reflexivity | by left | reflexivity |].
  exists cfg. split; [exact Hcfg|]. rewrite He. vm_compute. reflexivity.
Defined.

(** X4: without a project identifier, a document name that is true but
    not a string (a non-zero number, [true], a non-empty array or object)
    makes the loader raise [AttributeError]. *)
Theorem empty_identifier_needs_string_name data c env v :
  project_block data = PDict c →
  dict_get c (PStr (lit "name")) = Some v →
  truthy v = true →
  (∀ s, v ≠ PStr s) →
  load_project_config data [] env = Raise AttributeError.
Proof.
  intros Hblock Hv Ht Hns. unfold load_project_config. rewrite Hblock.
  destruct (ensure_name_dict c []) as (c' & -> & Hname & _). simpl.
  unfold get_default. rewrite Hname, Hv. simpl.
  unfold normalize_prefix. rewrite Ht.
  destruct v; try done. by destruct (Hns s).
Qed.

Lemma empty_identifier_needs_string_name_witness :
  load_project_config
    (jobj [("PROJECT_CONFIG", PDict (jobj [("name", PInt 7)]))]) [] ∅
  = Raise AttributeError.
Proof.
  apply (empty_identifier_needs_string_name _ (jobj [("name", PInt 7)]) ∅
           (PInt 7)); [reflexivity | reflexivity | reflexivity | done].
Defined.
End LoaderEdges.

(** ** More on the loader: what stops it, what it preserves *)
Section LoaderStops.
Import JsonRunner RunnerAux Examples.
Implicit Types argv : list pystr.
Implicit Types env : gmap pystr pystr.
Implicit Types data c cfg st : pydict.

Lemma main_with_two_args argv env data :
  (2 ≤ length argv)%nat →
  main argv env (PDict data)
  = match load_project_config data (project_name_of argv env) env with
    | Raise e => Uncaught e
    | Ok project_config =>
        match get_default data (lit "TEST_STEPS") (PList []) with
        | PList ((_ :: _) as test_steps) =>
            match resolve_steps project_config test_steps with
            | Raise e => Uncaught e
            | Ok resolved_steps => RunEngine project_config resolved_steps
            end
        | _ => Exit 2 (lit "No TEST_STEPS found in JSON flow")
        end
    end.
Proof.
  intros Hargv. unfold main.
  by assert ((length argv <? 2)%nat = false) as -> by (apply Nat.ltb_ge; lia).
Qed.

(** X5: a [PROJECT_CONFIG] that is present but is not an object (null, a
    number, a string, an array) is not passed over for [TARGET_CONFIG] or
    [BRAND_CONFIG]: [main] ends on an uncaught [TypeError] or
    [AttributeError], whatever the other keys and the steps are. *)
Theorem non_object_block_raises argv env data b :
  (2 ≤ length argv)%nat →
  dict_get data (PStr (lit "PROJECT_CONFIG")) = Some b →
  (∀ c, b ≠ PDict c) →
  ∃ e, main argv env (PDict data) = Uncaught e
       ∧ (e = TypeError ∨ e = AttributeError).
Proof.
  intros Hargv Hb Hno. rewrite main_with_two_args by done.
  unfold load_project_config, project_block.
  unfold get_default at 1. rewrite Hb. simpl.
  destruct b as [| | |s|l|c]; simpl;
    try (exists TypeError; split; [done | by left]).
  - destruct (lit "name" ∈? s); simpl.
    + unfold prefix_source.
      destruct (project_name_of argv env) as [|ch pn]; simpl;
        exists AttributeError; (split; [done | by right]).
    + exists TypeError. split; [done | by left].
  - destruct (existsb _ l); simpl.
    + unfold prefix_source.
      destruct (project_name_of argv env) as [|ch pn]; simpl;
        exists AttributeError; (split; [done | by right]).
    + exists TypeError. split; [done | by left].
  - by destruct (Hno c).
Qed.

Lemma non_object_block_raises_witness :
  ∃ e, main argv_acme ∅
         (PDict (jobj [("PROJECT_CONFIG", PNone);
                       ("TARGET_CONFIG", PDict scenario_b_block);
                       ("TEST_STEPS", PList (PDict <$> scenario_b_steps))]))
       = Uncaught e
       ∧ (e = TypeError ∨ e = AttributeError).
Proof.
  apply (non_object_block_raises argv_acme ∅ _ PNone);
    [simpl; lia | reflexivity | done].
Defined.

(** *** The step list *)

Lemma resolve_steps_app cfg (l1 l2 : list pyval) :
  resolve_steps cfg (l1 ++ l2)
  = bind (resolve_steps cfg l1) (λ r1,
    bind (resolve_steps cfg l2) (λ r2, Ok (r1 ++ r2))).
Proof.
  induction l1 as [|s l1 IH]; simpl.
  - by destruct (resolve_steps cfg l2).
  - destruct (resolve_step cfg s); simpl; [|done].
    rewrite IH. destruct (resolve_steps cfg l1); simpl; [|done].
    by destruct (resolve_steps cfg l2).
Qed.

Lemma resolve_steps_all_convert cfg (steps : list pyval) :
  Forall converts steps →
  ∃ resolved,
    resolve_steps cfg steps = Ok resolved
    ∧ Forall2 (λ step r, ∃ st, py_dict step = Ok st
                               ∧ r = resolve_tokens cfg st) steps resolved.
Proof.
  induction 1 as [|s steps [st Hs] _ (rs & IH & Hall)]; simpl.
  - by exists [].
  - exists (resolve_tokens cfg st :: rs).
    unfold resolve_step. rewrite Hs. simpl. rewrite IH. simpl.
    split; [done|]. constructor; [by exists st | done].
Qed.

Lemma resolve_steps_first_failure cfg (steps : list pyval) i step e :
  steps !! i = Some step →
  py_dict step = Raise e →
  Forall converts (take i steps) →
  resolve_steps cfg steps = Raise e.
Proof.
  intros Hi He Hbefore.
  rewrite <- (take_drop_middle steps i step Hi), resolve_steps_app.
  destruct (resolve_steps_all_convert cfg _ Hbefore) as (rs & -> & _).
  simpl. unfold resolve_step. by rewrite He.
Qed.

(** X6: the first step that [dict(...)] refuses (null, a number, a
    boolean, a non-empty string, an array that is not a list of pairs)
    ends [main] on that exception: the engine is not called, not even on
    the steps before it. *)
Theorem malformed_step_stops_before_engine argv env data cfg
    (steps : list pyval) i step e :
  (2 ≤ length argv)%nat →
  load_project_config data (project_name_of argv env) env = Ok cfg →
  get_default data (lit "TEST_STEPS") (PList []) = PList steps →
  steps !! i = Some step →
  py_dict step = Raise e →
  Forall converts (take i steps) →
  main argv env (PDict data) = Uncaught e
  ∧ engine_called (main argv env (PDict data)) = false.
Proof.
  intros Hargv Hcfg Hsteps Hi He Hbefore.
  assert (main argv env (PDict data) = Uncaught e) as ->; [|done].
  rewrite main_with_two_args, Hcfg, Hsteps by done.
  destruct steps as [|s0 steps]; [done|].
  by rewrite (resolve_steps_first_failure cfg _ i step e).
Qed.

Lemma malformed_step_stops_before_engine_witness :
  main argv_acme ∅
    (PDict (jobj [("TEST_STEPS",
                   PList ((PDict <$> scenario_b_steps) ++ [PInt 3]))]))
  = Uncaught TypeError.
Proof.
  destruct (load_project_config_dict
              (jobj [("TEST_STEPS",
                      PList ((PDict <$> scenario_b_steps) ++ [PInt 3]))])
              [] (lit "acme") ∅) as (cfg & Hcfg & _);
    [reflexivity | by vm_compute |].
  apply (malformed_step_stops_before_engine argv_acme ∅ _ cfg
           ((PDict <$> scenario_b_steps) ++ [PInt 3]) 3 (PInt 3) TypeError);
    [simpl; lia | exact Hcfg | reflexivity | reflexivity | reflexivity |].
  repeat constructor; by eexists.
Defined.

(** X7: when every step converts, the engine receives exactly one
    resolved step for each step of the document, in document order;
    arrays of key/value pairs are accepted as steps like objects. *)
Theorem steps_reach_engine_in_order argv env data cfg (steps : list pyval) :
  (2 ≤ length argv)%nat →
  load_project_config data (project_name_of argv env) env = Ok cfg →
  get_default data (lit "TEST_STEPS") (PList []) = PList steps →
  steps ≠ [] →
  Forall converts steps →
  ∃ resolved,
    main argv env (PDict data) = RunEngine cfg resolved
    ∧ Forall2 (λ step r, ∃ st, py_dict step = Ok st
                               ∧ r = resolve_tokens cfg st) steps resolved.
Proof.
  intros Hargv Hcfg Hsteps Hne Hall.
  destruct (resolve_steps_all_convert cfg steps Hall) as (rs & Hrs & H2).
  exists rs. split; [|done].
  rewrite main_with_two_args, Hcfg, Hsteps by done.
  destruct steps as [|s0 steps]; [done|]. by rewrite Hrs.
Qed.

Lemma steps_reach_engine_in_order_witness :
  ∃ cfg r0 r1,
    main argv_acme scenario_b_env
      (PDict (jobj [("TEST_STEPS",
                     PList [PList [PList [jstr "action"; jstr "fill"];
                                   PList [jstr "value"; jstr "$EMAIL"]];
                            PDict (jobj [("action", jstr "wait")])])]))
    = RunEngine cfg [r0; r1]
    ∧ r0 = jobj [("action", jstr "fill"); ("value", jstr "test@x.com")]
    ∧ r1 = jobj [("action", jstr "wait")].
Proof.
  set (steps := [PList [PList [jstr "action"; jstr "fill"];
                        PList [jstr "value"; jstr "$EMAIL"]];
                 PDict (jobj [("action", jstr "wait")])]).
  destruct (load_project_config_dict
              (jobj [("TEST_STEPS", PList steps)]) [] (lit "acme")
              scenario_b_env) as (cfg & Hcfg & _ & He & _);
    [reflexivity | by vm_compute |].
  destruct (steps_reach_engine_in_order argv_acme scenario_b_env
              (jobj [("TEST_STEPS", PList steps)]) cfg steps)
    as (rs & Hmain & H2);
    [simpl; lia | exact Hcfg | reflexivity | done
    | repeat constructor; by eexists |].
  apply Forall2_cons_inv_l in H2 as (r0 & rs' & (st0 & Hst0 & Hr0) & H2 & ->).
  apply Forall2_cons_inv_l in H2 as (r1 & rs'' & (st1 & Hst1 & Hr1) & H2 & ->).
  apply Forall2_nil_inv_l in H2 as ->.
  exists cfg, r0, r1. split; [exact Hmain|].
  injection Hst0 as <-. injection Hst1 as <-. subst r0 r1.
  split; [|reflexivity].
  unfold resolve_tokens. simpl. unfold get_default. rewrite He.
  vm_compute. reflexivity.
Defined.

(** *** What the substitution preserves *)

Lemma dict_set_keys (d : pydict) k v x :
  dict_get d (PStr k) = Some x →
  (dict_set d (PStr k) v).*1 = d.*1.
Proof.
  induction d as [|[k0 v0] d IH]; simpl; [done|].
  destruct (key_eqb k0 (PStr k)); simpl; [done|].
  intros H. f_equal. exact (IH H).
Qed.

Lemma dict_get_set_other (d : pydict) k v (k' : pyval) :
  key_eqb k' (PStr k) = false →
  dict_get (dict_set d (PStr k) v) k' = dict_get d k'.
Proof.
  intros Hne. induction d as [|[k0 v0] d IH]; simpl.
  - destruct k'; simpl in *; try done.
    rewrite bool_decide_eq_false in Hne.
    rewrite bool_decide_eq_false_2; [done | congruence].
  - destruct (key_eqb k0 (PStr k)) eqn:E; simpl.
    + apply key_eqb_str in E as ->.
      assert (key_eqb (PStr k) k' = false) as ->; [|done].
      destruct k'; simpl in *; try done.
      rewrite bool_decide_eq_false in Hne.
      rewrite bool_decide_eq_false_2; [done | congruence].
    + by rewrite IH.
Qed.

(** X8: the substitution changes nothing but the value: the resolved
    step has the keys of the step in the same order, and every entry
    under another key is the one of the step. *)
Theorem resolve_tokens_only_value cfg st :
  (resolve_tokens cfg st).*1 = st.*1
  ∧ ∀ k, key_eqb k (PStr (lit "value")) = false →
         dict_get (resolve_tokens cfg st) k = dict_get st k.
Proof.
  unfold resolve_tokens, get_default.
  destruct (eq_str _ _); [|done].
  destruct (dict_get st (PStr (lit "value"))) as [[| | |val| |]|] eqn:Hv;
    simpl; try done.
  destruct (bool_decide (val = lit "$EMAIL")).
  { split; [by eapply dict_set_keys | intros; by apply dict_get_set_other]. }
  destruct (bool_decide (val = lit "$PASSWORD")); [|done].
  split; [by eapply dict_set_keys | intros; by apply dict_get_set_other].
Qed.

(** *** The variables the loader reads *)

(** The loaded configuration depends on the environment only through
    the variables whose names end in [_EMAIL], [_PASSWORD] and
    [_USER_AGENT]. *)
Lemma load_project_config_env_agree data project_name env1 env2 :
  (∀ prefix suffix, suffix ∈ credential_suffixes →
     env1 !! (prefix ++ suffix) = env2 !! (prefix ++ suffix)) →
  load_project_config data project_name env1
  = load_project_config data project_name env2.
Proof.
  intros Hagree. unfold load_project_config.
  destruct (ensure_name _ _) as [block|]; simpl; [|done].
  destruct (prefix_source _ _) as [src|]; simpl; [|done].
  destruct (normalize_prefix src) as [prefix|]; simpl; [|done].
  unfold inject_env, getenv. destruct block; try done.
  rewrite !(Hagree prefix) by (unfold credential_suffixes; set_solver).
  done.
Qed.

(** X9: what [main] hands to the engine, or the way it ends before,
    depends on the environment only through [PROJECT], [TARGET] and
    [BRAND], and these only when the command line gives no project
    identifier, and through the variables whose names end in [_EMAIL],
    [_PASSWORD] and [_USER_AGENT]: two environments that agree on these
    give the same outcome, failures included. *)
Theorem main_reads_only_named_variables argv env1 env2 (data : pyval) :
  (argv !! 2%nat = None →
   ∀ k, k ∈ project_variables → env1 !! k = env2 !! k) →
  (∀ prefix suffix, suffix ∈ credential_suffixes →
     env1 !! (prefix ++ suffix) = env2 !! (prefix ++ suffix)) →
  main argv env1 data = main argv env2 data.
Proof.
  intros Hproj Hcred. unfold main.
  destruct (length argv <? 2)%nat; [done|].
  assert (project_name_of argv env1 = project_name_of argv env2) as ->.
  { unfold project_name_of. destruct (argv !! 2%nat) as [p|]; [done|].
    unfold getenv.
    by rewrite !(Hproj eq_refl) by (unfold project_variables; set_solver). }
  destruct data as [| | | | |d]; try done.
  by rewrite (load_project_config_env_agree d _ env1 env2 Hcred).
Qed.

Lemma main_reads_only_named_variables_witness :
  main [lit "tests/json_runner.py"; lit "flow.json"]
    (<[lit "PROJECT" := lit "acme"]> scenario_b_env) (PDict scenario_b_doc)
  = main [lit "tests/json_runner.py"; lit "flow.json"]
      (<[lit "HOME" := lit "/root"]>
         (<[lit "PROJECT" := lit "acme"]> scenario_b_env))
      (PDict scenario_b_doc).
Proof.
  apply main_reads_only_named_variables.
  - intros _ k Hk. rewrite (lookup_insert_ne _ (lit "HOME")); [done|].
    intros <-. unfold project_variables in Hk.
    repeat (apply elem_of_cons in Hk as [Hk|Hk]);
      [by vm_compute in Hk .. | by apply elem_of_nil in Hk].
  - intros prefix suffix Hs.
    rewrite (lookup_insert_ne _ (lit "HOME")); [done|].
    intros Heq. apply (f_equal (λ s, last s)) in Heq.
    rewrite last_app in Heq.
    unfold credential_suffixes in Hs.
    repeat (apply elem_of_cons in Hs as [->|Hs]);
      [by vm_compute in Heq .. | by apply elem_of_nil in Hs].
Defined.
End LoaderStops.

(** ** More on the log consumer *)
Section ConsumerMore.
Import Gui LogText.
Implicit Types line s needle : pystr.

Lemma is_explicit_fail_nonempty line :
  is_explicit_fail line = true → line ≠ [].
Proof. intros H ->. by vm_compute in H. Qed.

Lemma foldl_consume_error_message st (lines : list pystr) :
  Forall (λ l, str_truthy l = true) lines →
  error_message (foldl consume_line st lines)
  = match last (filter (λ t, is_explicit_fail t = true) (strip <$> lines)) with
    | Some e => Some e
    | None => error_message st
    end.
Proof.
  intros Hall. revert st.
  induction Hall as [|l lines Hl _ IH]; intros st; [done|].
  rewrite fmap_cons, filter_cons. cbn [foldl]. rewrite IH.
  set (errs := filter _ (strip <$> lines)).
  assert (error_message (consume_line st l)
          = if decide (is_explicit_fail (strip l) = true)
            then Some (strip l) else error_message st) as ->.
  { unfold consume_line. rewrite Hl.
    destruct (decide (is_explicit_fail (strip l) = true)) as [E|E].
    - by rewrite E.
    - apply not_true_is_false in E. rewrite E. by destruct (_ ∈? _). }
  destruct (decide (is_explicit_fail (strip l) = true));
    destruct errs as [|x xs]; try done.
  rewrite last_cons_cons.
  destruct (last (x :: xs)) eqn:El; [done | by apply last_None in El].
Qed.

Lemma existsb_error_lines (lines : list pystr) :
  Forall (λ l, str_truthy l = true) lines →
  existsb (λ l, str_truthy l && is_explicit_fail (strip l)) lines
  = bool_decide (filter (λ t, is_explicit_fail t = true) (strip <$> lines)
                 ≠ []).
Proof.
  induction 1 as [|l lines Hl _ IH]; [done|].
  rewrite fmap_cons, filter_cons. cbn [existsb]. rewrite Hl, IH. simpl.
  destruct (decide (is_explicit_fail (strip l) = true)) as [E|E].
  - by rewrite E.
  - apply not_true_is_false in E. by rewrite E.
Qed.

(** The two locals of the loop, in terms of the error lines. *)
Lemma consume_loop_locals (reads : list pystr) :
  test_failed (consume_loop reads) = bool_decide (error_lines reads ≠ [])
  ∧ error_message (consume_loop reads) = last (error_lines reads).
Proof.
  assert (Forall (λ l, str_truthy l = true) (iter_readline reads)) as Ht
    by (apply Forall_forall; apply iter_readline_truthy).
  unfold consume_loop, error_lines. split.
  - rewrite foldl_consume_failed. simpl. by apply existsb_error_lines.
  - rewrite foldl_consume_error_message by done. simpl. by destruct (last _).
Qed.

Lemma error_lines_nonempty (reads : list pystr) e :
  e ∈ error_lines reads → e ≠ [].
Proof.
  intros He. apply list_elem_of_filter in He as [He _].
  by apply is_explicit_fail_nonempty.
Qed.

(** X10: the error text kept for the summary is the last line
    classified as error, stripped; it is absent exactly when no line was
    classified as error, also when the run failed by its return code. *)
Theorem summary_error_is_last_error_line w (reads : list pystr) returncode :
  error (consume_test_logs w reads returncode) = last (error_lines reads).
Proof.
  unfold consume_test_logs, final_status.
  destruct (consume_loop_locals reads) as [_ Hmsg].
  destruct (test_failed (consume_loop reads) || negb (returncode =? 0)%Z);
    simpl; rewrite Hmsg;
    (destruct (last (error_lines reads)) as [[|ch e]|] eqn:El; try done;
     apply last_Some_elem_of in El; by apply error_lines_nonempty in El).
Qed.

Lemma final_status_locals st returncode :
  error_message (final_status st returncode).1 = error_message st
  ∧ (final_status st returncode).2
    = if test_failed st || negb (returncode =? 0)%Z
      then lit "failed" else lit "ok".
Proof. unfold final_status. by destruct (_ || _). Qed.

(** X11: the file [error_details.txt] is written exactly when some line
    was classified as error; a run that fails by its return code alone
    leaves only [summary.json] and [test_log.txt]. *)
Theorem error_details_iff_error_line (reads : list pystr) returncode :
  lit "error_details.txt" ∈ consume_test_logs_files reads returncode
  ↔ ∃ line, line ∈ iter_readline reads
            ∧ classify_line (strip line) = TagError.
Proof.
  rewrite <- consume_loop_failed.
  unfold consume_test_logs_files, summary_files.
  destruct (final_status_locals (consume_loop reads) returncode) as [Hm Hs].
  destruct (final_status (consume_loop reads) returncode) as [st' s].
  simpl in Hm, Hs. subst s. rewrite Hm.
  destruct (consume_loop_locals reads) as [Hf Hmsg].
  assert (lit "error_details.txt" ∉ [lit "summary.json"; lit "test_log.txt"])
    as Hnot.
  { intros H. repeat (apply elem_of_cons in H as [H|H]);
      [by vm_compute in H .. | by apply elem_of_nil in H]. }
  assert (lit "ok" ≠ lit "failed") as Hok by (by vm_compute).
  rewrite Hmsg, Hf.
  destruct (error_lines reads) as [|e0 errs] eqn:Eerrs.
  - rewrite (bool_decide_eq_false_2 (_ ≠ [])) by (by intros H; apply H).
    rewrite andb_false_r. by split; [intros ?%Hnot | ].
  - rewrite (bool_decide_eq_true_2 (_ ≠ [])) by done. cbn [orb].
    rewrite (bool_decide_eq_true_2 (_ = _)) by done. cbn [andb].
    destruct (last (e0 :: errs)) as [e|] eqn:El;
      [|by apply last_None in El].
    assert (e ≠ []) as He.
    { apply (error_lines_nonempty reads). rewrite Eerrs.
      by apply last_Some_elem_of. }
    destruct e; [done|]. split; [done|]. intros _. set_solver.
Qed.

Lemma duration_from_log_at_least_one (log_content : pystr) :
  (1 ≤ duration_from_log log_content)%Z.
Proof.
  unfold duration_from_log.
  destruct (omap line_timestamp (split_on 10 log_content)) as [|t0 [|t1 ts]];
    lia.
Qed.

Lemma duration_from_summary_at_least_one (f : summary_file) d :
  duration_from_summary f = Returns d → (1 ≤ d)%Z.
Proof.
  unfold duration_from_summary. destruct f as [| |[|st steps]]; try done.
  destruct (omap step_start (st :: steps)) as [|s ss]; [done|].
  destruct (omap step_end (st :: steps)) as [|e es]; [done|].
  destruct (negb _ && negb _); [|done].
  intros [= <-]. lia.
Qed.

(** X12: the duration is never below one second, whichever way it is
    computed. *)
Theorem duration_at_least_one (log_content : pystr) (f : summary_file) :
  (1 ≤ calculate_test_duration log_content f)%Z.
Proof.
  unfold calculate_test_duration.
  destruct (duration_from_summary f) as [d| |] eqn:E.
  - by eapply duration_from_summary_at_least_one.
  - done.
  - apply duration_from_log_at_least_one.
Qed.
End ConsumerMore.

(** ** White space around a line *)
Section StripFacts.
Import Gui LogText.
Implicit Types s t needle : pystr.

Lemma last_rev {A} (l : list A) : last (rev l) = head l.
Proof. destruct l as [|x l]; [done|]. simpl. apply last_snoc. Qed.

Lemma head_rev {A} (l : list A) : head (rev l) = last l.
Proof. by rewrite <- (last_rev (rev l)), rev_involutive. Qed.

Lemma lstrip_suffix s : ∃ ws, s = ws ++ lstrip s ∧ forallb is_space ws = true.
Proof.
  induction s as [|c s (ws & IH & Hws)]; simpl; [by exists []|].
  destruct (is_space c) eqn:E.
  - exists (c :: ws). simpl. rewrite E, Hws. split; [by f_equal | done].
  - by exists [].
Qed.

Lemma lstrip_head_not_space s :
  from_option is_space false (head (lstrip s)) = false.
Proof.
  induction s as [|c s IH]; simpl; [done|].
  destruct (is_space c) eqn:E; [done | by simpl].
Qed.

Lemma lstrip_id s :
  from_option is_space false (head s) = false → lstrip s = s.
Proof. destruct s as [|c s]; simpl; [done | by intros ->]. Qed.

Lemma lstrip_spaces ws s :
  forallb is_space ws = true → lstrip (ws ++ s) = lstrip s.
Proof.
  induction ws as [|c ws IH]; simpl; [done|].
  intros [-> H]%andb_true_iff. auto.
Qed.

Lemma rstrip_prefix s : ∃ ws, s = rstrip s ++ ws ∧ forallb is_space ws = true.
Proof.
  unfold rstrip. destruct (lstrip_suffix (rev s)) as (ws & E & Hws).
  exists (rev ws). split.
  - rewrite <- rev_app_distr, <- E. by rewrite rev_involutive.
  - rewrite forallb_forall in Hws |- *. intros c Hc. apply Hws.
    by apply in_rev.
Qed.

Lemma rstrip_last_not_space s :
  from_option is_space false (last (rstrip s)) = false.
Proof.
  unfold rstrip. rewrite last_rev. apply lstrip_head_not_space.
Qed.

Lemma rstrip_id s :
  from_option is_space false (last s) = false → rstrip s = s.
Proof.
  intros H. unfold rstrip. rewrite lstrip_id; [apply rev_involutive|].
  by rewrite head_rev.
Qed.

Lemma rstrip_spaces s ws :
  forallb is_space ws = true → rstrip (s ++ ws) = rstrip s.
Proof.
  intros H. unfold rstrip. rewrite rev_app_distr, lstrip_spaces; [done|].
  rewrite forallb_forall in H |- *. intros c Hc. apply H. by apply in_rev.
Qed.

(** Stripping on the right keeps everything before a part that does not
    strip to nothing. *)
Lemma rstrip_app s t : rstrip t ≠ [] → rstrip (s ++ t) = s ++ rstrip t.
Proof.
  intros Hne. destruct (rstrip_prefix t) as (ws & E & Hws).
  rewrite E at 1. rewrite (assoc_L (++)), rstrip_spaces by done.
  apply rstrip_id. rewrite last_app.
  pose proof (rstrip_last_not_space t) as H.
  destruct (last (rstrip t)) eqn:El; [done|].
  by apply last_None in El.
Qed.

Lemma rstrip_head s :
  from_option is_space false (head s) = false →
  from_option is_space false (head (rstrip s)) = false.
Proof.
  intros H. destruct (rstrip_prefix s) as (ws & E & _).
  destruct (rstrip s) as [|c r]; [done|].
  rewrite E in H. exact H.
Qed.

(** [strip] is idempotent: the second [strip] of [consume_test_logs] has
    nothing left to remove. *)
Lemma strip_idemp s : strip (strip s) = strip s.
Proof.
  unfold strip.
  rewrite (lstrip_id (rstrip (lstrip s)))
    by apply rstrip_head, lstrip_head_not_space.
  apply rstrip_id, rstrip_last_not_space.
Qed.

Lemma is_space_printable c : (32 < c < 133)%N → is_space c = false.
Proof.
  intros H. unfold is_space.
  rewrite (proj2 (N.leb_gt c 13)) by lia.
  rewrite (proj2 (N.leb_gt c 32)) by lia.
  rewrite (proj2 (N.eqb_neq c 133)) by lia.
  rewrite (proj2 (N.eqb_neq c 160)) by lia.
  rewrite (proj2 (N.eqb_neq c 5760)) by lia.
  rewrite (proj2 (N.leb_gt 8192 c)) by lia.
  rewrite (proj2 (N.eqb_neq c 8232)) by lia.
  rewrite (proj2 (N.eqb_neq c 8233)) by lia.
  rewrite (proj2 (N.eqb_neq c 8239)) by lia.
  rewrite (proj2 (N.eqb_neq c 8287)) by lia.
  rewrite (proj2 (N.eqb_neq c 12288)) by lia.
  by rewrite !andb_false_r.
Qed.

Lemma is_space_lower_cp c : is_space (lower_cp c) = is_space c.
Proof.
  unfold lower_cp.
  destruct (65 <=? c)%N eqn:E1, (c <=? 90)%N eqn:E2; simpl; try done.
  apply N.leb_le in E1, E2.
  by rewrite !is_space_printable by lia.
Qed.

Lemma lower_lstrip s : lower (lstrip s) = lstrip (lower s).
Proof.
  induction s as [|c s IH]; simpl; [done|].
  rewrite is_space_lower_cp. by destruct (is_space c).
Qed.

Lemma lower_rev s : lower (rev s) = rev (lower s).
Proof.
  unfold lower. induction s as [|c s IH]; [done|].
  cbn [rev]. rewrite fmap_app, IH. by rewrite fmap_cons.
Qed.

Lemma lower_strip s : lower (strip s) = strip (lower s).
Proof.
  unfold strip, rstrip.
  by rewrite lower_rev, lower_lstrip, lower_rev, lower_lstrip.
Qed.

Lemma contains_lstrip needle s :
  from_option is_space true (head needle) = false →
  needle ∈? lstrip s = needle ∈? s.
Proof.
  destruct needle as [|d n]; [done|]. simpl. intros Hd.
  induction s as [|c s IH]; [done|].
  cbn [lstrip]. destruct (is_space c) eqn:E; [|done].
  rewrite IH. cbn [contains startswith].
  destruct (d =? c)%N eqn:Edc; [|done].
  apply N.eqb_eq in Edc. congruence.
Qed.

Lemma mentions_rev needle s : mentions needle s → mentions (rev needle) (rev s).
Proof.
  intros (a & b & ->). exists (rev b), (rev a).
  by rewrite !rev_app_distr, (assoc_L (++)).
Qed.

Lemma contains_rev needle s : rev needle ∈? rev s = needle ∈? s.
Proof.
  apply eq_true_iff_eq. rewrite !contains_mentions. split.
  - intros H%mentions_rev. by rewrite !rev_involutive in H.
  - apply mentions_rev.
Qed.

Lemma contains_rstrip needle s :
  from_option is_space true (last needle) = false →
  needle ∈? rstrip s = needle ∈? s.
Proof.
  intros H. unfold rstrip.
  rewrite <- (rev_involutive needle) at 1.
  rewrite contains_rev, contains_lstrip, contains_rev; [done|].
  by rewrite head_rev.
Qed.

Lemma contains_strip needle s :
  from_option is_space true (head needle) = false →
  from_option is_space true (last needle) = false →
  needle ∈? strip s = needle ∈? s.
Proof.
  intros Hh Hl. unfold strip. by rewrite contains_rstrip, contains_lstrip.
Qed.

(** X13: the classification of a line does not depend on the white
    space around it: stripping the line first, as [consume_test_logs]
    does, changes nothing. *)
Theorem classify_line_ignores_outer_space line :
  classify_line (strip line) = classify_line line.
Proof.
  unfold classify_line.
  assert (is_explicit_fail (strip line) = is_explicit_fail line) as ->
    by (unfold is_explicit_fail; by rewrite strip_idemp).
  by rewrite lower_strip, (contains_strip (lit "warning"))
    by (by vm_compute).
Qed.
End StripFacts.

(** ** The time stamps of the log *)
Section Clock.
Import Gui LogText.
Implicit Types s t rest message : pystr.

Lemma split_on_no_sep sep s : sep ∉ s → split_on sep s = [s].
Proof.
  induction s as [|c s IH]; [done|].
  intros H. apply not_elem_of_cons in H as [Hc Hs]. simpl.
  destruct (c =? sep)%N eqn:E; [apply N.eqb_eq in E; congruence|].
  by rewrite IH.
Qed.

Lemma split_on_app_sep sep s t :
  sep ∉ s → split_on sep (s ++ sep :: t) = s :: split_on sep t.
Proof.
  induction s as [|c s IH]; simpl.
  - by rewrite N.eqb_refl.
  - intros H. apply not_elem_of_cons in H as [Hc Hs].
    destruct (c =? sep)%N eqn:E; [apply N.eqb_eq in E; congruence|].
    by rewrite IH.
Qed.

(** The numbers below [k]. *)
Lemma below_elem (n : N) (k : nat) :
  (n < N.of_nat k)%N → n ∈ (N.of_nat <$> seq 0 k).
Proof.
  intros H. apply list_elem_of_fmap. exists (N.to_nat n).
  split; [by rewrite N2Nat.id|].
  apply list_elem_of_In, in_seq. lia.
Qed.

(** A two-digit field is read back by [int]; it holds no colon, no
    bracket and no white space. *)
Lemma two_digits_facts (n : N) :
  (n < 100)%N →
  int_of_str (two_digits n) = Some (Z.of_N n)
  ∧ (58%N ∉ two_digits n) ∧ (93%N ∉ two_digits n).
Proof.
  intros H.
  assert (Forall (λ n, int_of_str (two_digits n) = Some (Z.of_N n)
                       ∧ (58%N ∉ two_digits n) ∧ (93%N ∉ two_digits n))
            (N.of_nat <$> seq 0 100)) as Hall by compute_done.
  rewrite Forall_forall in Hall. apply Hall. by apply (below_elem n 100).
Qed.

(** A line that begins with "[HH:MM:SS]" yields the seconds since
    midnight, whatever follows. *)
Lemma line_timestamp_bracketed (h m s : N) rest :
  valid_clock (h, m, s) →
  line_timestamp (lit "[" ++ strftime_hms h m s ++ lit "]" ++ rest)
  = Some (seconds_of_day h m s).
Proof.
  intros (Hh & Hm & Hs). simpl in Hh, Hm, Hs.
  destruct (two_digits_facts h) as (Ih & Ch & Bh); [lia|].
  destruct (two_digits_facts m) as (Im & Cm & Bm); [lia|].
  destruct (two_digits_facts s) as (Is & Cs & Bs); [lia|].
  unfold line_timestamp.
  change (lit "[") with [91%N]. change (lit "]") with [93%N].
  assert (93%N ∉ 91%N :: strftime_hms h m s) as Hnb.
  { unfold strftime_hms. change (lit ":") with [58%N].
    rewrite !not_elem_of_cons, !not_elem_of_app, !not_elem_of_cons.
    repeat split; try done; apply not_elem_of_nil. }
  assert ([93%N] ∈? ([91%N] ++ strftime_hms h m s ++ [93%N] ++ rest) = true)
    as ->.
  { apply contains_mentions. by exists ([91%N] ++ strftime_hms h m s), rest;
      rewrite <- !(assoc_L (++)). }
  cbn [app startswith]. rewrite N.eqb_refl. cbn [andb].
  change (91%N :: strftime_hms h m s ++ 93%N :: rest)
    with ((91%N :: strftime_hms h m s) ++ 93%N :: rest).
  rewrite (split_on_app_sep 93 (91%N :: strftime_hms h m s) rest Hnb).
  cbn [head default drop from_option id].
  rewrite drop_0.
  unfold strftime_hms. change (lit ":") with [58%N]. cbn [app].
  rewrite (split_on_app_sep 58 (two_digits h) _ Ch).
  rewrite (split_on_app_sep 58 (two_digits m) _ Cm).
  rewrite (split_on_no_sep 58 (two_digits s) Cs).
  rewrite Ih, Im, Is. done.
Qed.

Lemma strftime_hms_no_newline (h m s : N) :
  valid_clock (h, m, s) → 10%N ∉ strftime_hms h m s.
Proof.
  intros (Hh & Hm & Hs). simpl in Hh, Hm, Hs.
  assert (∀ n, (n < 100)%N → 10%N ∉ two_digits n) as H.
  { intros n Hn.
    assert (Forall (λ n, 10%N ∉ two_digits n) (N.of_nat <$> seq 0 100))
      as Hall by compute_done.
    rewrite Forall_forall in Hall. apply Hall. by apply (below_elem n 100). }
  unfold strftime_hms. change (lit ":") with [58%N].
  rewrite !not_elem_of_app, !not_elem_of_cons.
  repeat split; try done; try apply not_elem_of_nil; apply H; lia.
Qed.

Lemma formatted_message_line (e : (N * N * N) * pystr) :
  formatted_message e.1.1.1 e.1.1.2 e.1.2 e.2 = entry_line e ++ [10%N].
Proof. unfold formatted_message, entry_line. by rewrite <- !(assoc_L (++)). Qed.

Lemma entry_line_no_newline e : one_line_entry e → 10%N ∉ entry_line e.
Proof.
  destruct e as [[[h m] s] msg]. intros [Hc Hmsg].
  unfold entry_line. cbn [fst snd] in *.
  change (lit "[") with [91%N]. change (lit "] ") with [93%N; 32%N].
  rewrite !not_elem_of_app, !not_elem_of_cons.
  repeat split; try done; try apply not_elem_of_nil.
  by apply strftime_hms_no_newline.
Qed.

Lemma entry_line_timestamp e :
  one_line_entry e → line_timestamp (entry_line e) = Some (entry_seconds e).
Proof.
  destruct e as [[[h m] s] msg]. intros [Hc _].
  unfold entry_line, entry_seconds. cbn [fst snd] in *.
  change (lit "] " ++ msg) with (lit "]" ++ (32%N :: msg)).
  by apply line_timestamp_bracketed.
Qed.

(** X14: the text [add_log] inserts for a message of one line is read
    back by the duration fallback as one stamped line: the seconds since
    midnight of the clock time it was written at. *)
Theorem formatted_message_read_back (h m s : N) message :
  one_line_entry ((h, m, s), message) →
  omap line_timestamp (split_on 10 (formatted_message h m s message))
  = [seconds_of_day h m s].
Proof.
  intros He.
  change (formatted_message h m s message)
    with (formatted_message (h, m, s, message).1.1.1 (h, m, s, message).1.1.2
            (h, m, s, message).1.2 (h, m, s, message).2).
  rewrite (formatted_message_line ((h, m, s), message)).
  rewrite (split_on_app_sep 10 _ [] (entry_line_no_newline _ He)).
  cbn [split_on omap list_omap]. by rewrite (entry_line_timestamp _ He).
Qed.

Lemma formatted_message_read_back_witness :
  omap line_timestamp
    (split_on 10 (formatted_message 23 59 58 (lit "Starting ACME test")))
  = [86398%Z].
Proof.
  apply (formatted_message_read_back 23 59 58 (lit "Starting ACME test")).
  split; [repeat split; simpl; lia | compute_done].
Defined.

(** *** A whole log *)

Lemma widget_text_cons e entries :
  widget_text (e :: entries) = entry_line e ++ 10%N :: widget_text entries.
Proof.
  unfold widget_text. rewrite fmap_cons. cbn [mjoin list_join].
  by rewrite formatted_message_line, <- (assoc_L (++)).
Qed.

Lemma widget_text_app entries1 entries2 :
  widget_text (entries1 ++ entries2)
  = widget_text entries1 ++ widget_text entries2.
Proof.
  induction entries1 as [|e es IH]; [done|].
  cbn [app]. rewrite !widget_text_cons, IH.
  by rewrite <- (assoc_L (++)).
Qed.

Lemma split_on_widget_text entries t :
  Forall one_line_entry entries →
  split_on 10 (widget_text entries ++ t)
  = (entry_line <$> entries) ++ split_on 10 t.
Proof.
  induction 1 as [|e entries He _ IH]; [done|].
  rewrite widget_text_cons, <- (assoc_L (++)). cbn [app].
  rewrite split_on_app_sep by (by apply entry_line_no_newline).
  by rewrite IH.
Qed.

Lemma rstrip_app_keep s t :
  from_option is_space true (last s) = false →
  rstrip (s ++ t) = s ++ rstrip t.
Proof.
  intros Hs. destruct (rstrip_prefix t) as (ws & E & Hws).
  rewrite E at 1. rewrite (assoc_L (++)), rstrip_spaces by done.
  apply rstrip_id. rewrite last_app.
  pose proof (rstrip_last_not_space t) as H.
  destruct (last (rstrip t)) eqn:El; [done|].
  by destruct (last s).
Qed.

(** What is left of the last line once the widget text is stripped:
    its stamp, and the message without the white space at its end. *)
Lemma strip_widget_get entries e :
  Forall one_line_entry entries → one_line_entry e →
  ∃ rest,
    strip (widget_get (entries ++ [e]))
    = widget_text entries
      ++ lit "[" ++ strftime_hms e.1.1.1 e.1.1.2 e.1.2 ++ lit "]" ++ rest
    ∧ 10%N ∉ rest.
Proof.
  intros Hall He.
  exists (rstrip (32%N :: e.2)).
  assert (widget_get (entries ++ [e])
          = (widget_text entries
             ++ lit "[" ++ strftime_hms e.1.1.1 e.1.1.2 e.1.2 ++ lit "]")
            ++ (32%N :: e.2) ++ [10%N; 10%N]) as ->.
  { unfold widget_get. rewrite widget_text_app, widget_text_cons.
    change (widget_text []) with (@nil N). unfold entry_line.
    change (lit "] ") with (lit "]" ++ [32%N]).
    rewrite <- !(assoc_L (++)). done. }
  unfold strip. rewrite lstrip_id.
  - rewrite rstrip_app_keep.
    + rewrite rstrip_spaces by done.
      split; [by rewrite <- !(assoc_L (++))|].
      destruct (rstrip_prefix (32%N :: e.2)) as (ws & E & _).
      intros Hin. destruct He as [_ Hmsg]. apply Hmsg.
      assert (10%N ∈ 32%N :: e.2) as H
        by (rewrite E; apply elem_of_app; by left).
      by apply elem_of_cons in H as [H|H].
    + change (lit "]") with [93%N].
      by rewrite !(assoc_L (++)), last_snoc.
  - destruct entries as [|e0 entries].
    + by change (lit "[") with [91%N].
    + rewrite widget_text_cons. unfold entry_line.
      by change (lit "[") with [91%N].
Qed.

(** X15: for a log of at least two lines written by [add_log], each a
    message of one line, the duration read from the log is the clock
    time from the first line to the last, a day being added when the
    clock passed midnight, and one second at least. *)
Theorem log_duration_is_clock_span first middle final :
  Forall one_line_entry (first :: middle ++ [final]) →
  duration_from_log (strip (widget_get (first :: middle ++ [final])))
  = let d := (entry_seconds final - entry_seconds first)%Z in
    Z.max (if (d <? 0)%Z then d + 24 * 3600 else d)%Z 1.
Proof.
  intros Hall.
  assert (Forall one_line_entry (first :: middle) ∧ one_line_entry final)
    as [Hinit Hfinal].
  { change (first :: middle ++ [final]) with ((first :: middle) ++ [final])
      in Hall.
    apply Forall_app in Hall as [? Hf]. split; [done|].
    by inversion Hf. }
  change (first :: middle ++ [final]) with ((first :: middle) ++ [final]).
  destruct (strip_widget_get (first :: middle) final Hinit Hfinal)
    as (rest & -> & Hrest).
  unfold duration_from_log.
  rewrite split_on_widget_text by done.
  rewrite split_on_no_sep.
  2:{ pose proof (strftime_hms_no_newline _ _ _ (proj1 Hfinal)) as Hts.
      change (lit "[") with [91%N]. change (lit "]") with [93%N].
      rewrite !not_elem_of_app, !not_elem_of_cons.
      repeat split; try done; apply not_elem_of_nil. }
  rewrite omap_app. cbn [omap list_omap].
  rewrite (line_timestamp_bracketed _ _ _ rest (proj1 Hfinal)).
  assert (omap line_timestamp (entry_line <$> first :: middle)
          = entry_seconds <$> first :: middle) as ->.
  { clear Hall. induction Hinit as [|e es He _ IH]; [done|].
    rewrite !fmap_cons. cbn [omap list_omap]. by rewrite (entry_line_timestamp _ He), IH. }
  rewrite fmap_cons. cbn [app].
  fold (entry_seconds final).
  destruct ((entry_seconds <$> middle) ++ [entry_seconds final])
    as [|t ts] eqn:E; [by destruct middle|].
  rewrite <- E.
  change (entry_seconds first :: (entry_seconds <$> middle)
          ++ [entry_seconds final])
    with ((entry_seconds first :: (entry_seconds <$> middle))
          ++ [entry_seconds final]).
  rewrite last_snoc. done.
Qed.

Lemma log_duration_is_clock_span_witness :
  duration_from_log
    (strip (widget_get [((23, 59, 58)%N, lit "Starting test");
                        ((0, 0, 1)%N, lit "RUN_DIR: logs/x");
                        ((0, 0, 7)%N, lit "done  ")]))
  = 9%Z.
Proof.
  apply (log_duration_is_clock_span
           ((23, 59, 58)%N, lit "Starting test")
           [((0, 0, 1)%N, lit "RUN_DIR: logs/x")]
           ((0, 0, 7)%N, lit "done  ")).
  repeat constructor; simpl; try lia; compute_done.
Defined.
End Clock.

(** ** The builder: short names for selectors *)
Section Selector.
Import Builder.
Implicit Types s selector run rest : pystr.

Lemma span_app p s : s = (span p s).1 ++ (span p s).2.
Proof.
  induction s as [|c s IH]; [done|]. simpl.
  destruct (p c); [|done].
  destruct (span p s) as [run rest]. simpl in *. by rewrite <- IH.
Qed.

Lemma span_run p s : forallb p (span p s).1 = true.
Proof.
  induction s as [|c s IH]; [done|]. cbn [span].
  destruct (p c) eqn:E; [|done].
  destruct (span p s) as [run rest]. cbn [fst forallb] in *.
  by rewrite E, IH.
Qed.

Lemma span_rest p s : from_option p false (head (span p s).2) = false.
Proof.
  induction s as [|c s IH]; [done|]. simpl.
  destruct (p c) eqn:E; [|by simpl].
  by destruct (span p s) as [run rest].
Qed.

(** A maximal run followed by a character outside the class is what
    [span] finds. *)
Lemma span_exact p run rest :
  forallb p run = true → from_option p false (head rest) = false →
  span p (run ++ rest) = (run, rest).
Proof.
  intros Hrun Hrest. induction run as [|c run IH].
  - destruct rest as [|c rest]; [done|].
    cbn [app span]. cbn [head from_option] in Hrest. by rewrite Hrest.
  - cbn [forallb] in Hrun. apply andb_true_iff in Hrun as [Hc Hrun].
    rewrite <- app_comm_cons. cbn [span]. by rewrite Hc, IH.
Qed.

Lemma match_id_or_class_prefix s m :
  match_id_or_class s = Some m → m `prefix_of` s.
Proof.
  destruct s as [|c s]; [done|]. simpl.
  destruct ((c =? 35)%N || (c =? 46)%N); [|done].
  pose proof (span_app is_name_char s) as E.
  destruct (span is_name_char s) as [[|d run] rest]; [done|].
  intros [= <-]. simpl in E. rewrite E.
  apply prefix_cons. by exists rest.
Qed.

Lemma match_attribute_prefix s m :
  match_attribute s = Some m → m `prefix_of` s.
Proof.
  destruct s as [|c s]; [done|]. simpl.
  destruct (c =? 91)%N eqn:Ec; [|done]. apply N.eqb_eq in Ec as ->.
  pose proof (span_app (λ c, negb (c =? 93)%N) s) as E.
  pose proof (span_rest (λ c, negb (c =? 93)%N) s) as Hr.
  destruct (span (λ c, negb (c =? 93)%N) s) as [run [|r rest]]; [done|].
  destruct (_ && _); [|done]. intros [= <-]. simpl in E, Hr.
  apply negb_false_iff, N.eqb_eq in Hr as ->.
  rewrite E. apply prefix_cons. exists rest.
  by rewrite <- (assoc_L (++)).
Qed.

Lemma match_tag_attribute_prefix s m :
  match_tag_attribute s = Some m → m `prefix_of` s.
Proof.
  unfold match_tag_attribute.
  pose proof (span_app is_name_char s) as E.
  destruct (span is_name_char s) as [[|d tag] rest]; [done|].
  destruct (match_attribute rest) as [a|] eqn:Ea; [|done].
  intros [= <-]. apply match_attribute_prefix in Ea as [k ->].
  cbn [fst snd] in E. exists k. by rewrite E at 1; rewrite (assoc_L (++)).
Qed.

Lemma first_token_prefix s : first_token s `prefix_of` s.
Proof.
  unfold first_token. rewrite (span_app (λ c, negb (is_cut_char c)) s) at 2.
  by eexists.
Qed.

(** X16: the short name is always a prefix of the stripped selector:
    nothing is invented and nothing in the middle is dropped. *)
Theorem shorten_selector_is_prefix selector :
  shorten_selector_for_name selector `prefix_of` strip selector.
Proof.
  unfold shorten_selector_for_name.
  destruct (negb (str_truthy selector)); [apply prefix_nil|].
  destruct (match_id_or_class _) eqn:E1; [by apply match_id_or_class_prefix|].
  destruct (match_attribute _) eqn:E2; [by apply match_attribute_prefix|].
  destruct (match_tag_attribute _) eqn:E3;
    [by apply match_tag_attribute_prefix|].
  etrans; [apply prefix_take | apply first_token_prefix].
Qed.

Lemma name_char_not_cut c : is_name_char c = true → is_cut_char c = false.
Proof.
  unfold is_name_char, is_cut_char. intros H.
  assert (32 < c < 133 ∧ c ≠ 62 ∧ c ≠ 44)%N as (Hp & H1 & H2).
  { repeat (apply orb_true_iff in H as [H|H]);
      try (apply andb_true_iff in H as [Ha Hb];
           apply N.leb_le in Ha, Hb; lia);
      apply N.eqb_eq in H; lia. }
  rewrite is_space_printable by done.
  apply N.eqb_neq in H1, H2. by rewrite H1, H2.
Qed.

Lemma forallb_name_not_cut run :
  forallb is_name_char run = true →
  Forall (λ c, is_cut_char c = false) run.
Proof.
  rewrite forallb_forall, Forall_forall. intros H c Hc.
  apply name_char_not_cut, H. by apply list_elem_of_In.
Qed.

Lemma last_closing_bracket (l run : pystr) (x : N) :
  last (l ++ x :: run ++ [93%N]) = Some 93%N.
Proof.
  change (l ++ x :: run ++ [93%N]) with (l ++ (x :: run) ++ [93%N]).
  rewrite (assoc_L (++)). apply last_snoc.
Qed.

(** X17: the short name leaves no dangling separator: it either ends
    with a closing bracket (an attribute selector kept whole) or
    contains no white space, no [>] and no comma. *)
Theorem shorten_selector_shape selector :
  let r := shorten_selector_for_name selector in
  last r = Some 93%N ∨ Forall (λ c, is_cut_char c = false) r.
Proof.
  unfold shorten_selector_for_name.
  destruct (negb (str_truthy selector)); [by right|].
  set (s := strip selector).
  destruct (match_id_or_class s) as [m|] eqn:E1.
  { right. destruct s as [|c s']; [done|]. simpl in E1.
    destruct ((c =? 35)%N || (c =? 46)%N) eqn:Ec; [|done].
    pose proof (span_run is_name_char s') as Hrun.
    destruct (span is_name_char s') as [[|d run] rest]; [done|].
    injection E1 as <-. constructor.
    - apply orb_true_iff in Ec as [Ec|Ec]; apply N.eqb_eq in Ec; by subst.
    - by apply forallb_name_not_cut. }
  destruct (match_attribute s) as [m|] eqn:E2.
  { left. destruct s as [|c s']; [done|]. simpl in E2.
    destruct (c =? 91)%N; [|done].
    destruct (span _ s') as [run [|r rest]]; [done|].
    destruct (_ && _); [|done]. injection E2 as <-.
    apply (last_closing_bracket [] run 91%N). }
  destruct (match_tag_attribute s) as [m|] eqn:E3.
  { left. unfold match_tag_attribute in E3.
    destruct (span is_name_char s) as [[|d tag] rest]; [done|].
    destruct rest as [|c s']; [done|]. simpl in E3.
    destruct (c =? 91)%N; [|done].
    destruct (span _ s') as [run [|r rest]]; [done|].
    destruct (_ && _); [|done]. injection E3 as <-.
    apply (last_closing_bracket (d :: tag) run 91%N). }
  right. apply Forall_take. unfold first_token.
  pose proof (span_run (λ c, negb (is_cut_char c)) s) as H.
  rewrite forallb_forall in H. apply Forall_forall. intros c Hc.
  apply negb_true_iff, H. by apply list_elem_of_In.
Qed.

(** X18: for an id or class selector, the short name is the marker
    followed by the whole run of name characters after it. *)
Theorem shorten_id_or_class selector c run rest :
  strip selector = c :: run ++ rest →
  c = 35%N ∨ c = 46%N →
  run ≠ [] →
  forallb is_name_char run = true →
  from_option is_name_char false (head rest) = false →
  shorten_selector_for_name selector = c :: run.
Proof.
  intros Hs Hc Hne Hrun Hrest. unfold shorten_selector_for_name.
  destruct selector as [|c0 sel]; [done|]. cbn [str_truthy negb].
  rewrite Hs. cbn [match_id_or_class].
  assert ((c =? 35)%N || (c =? 46)%N = true) as ->
    by (destruct Hc as [-> | ->]; done).
  rewrite span_exact by done. cbn [fst]. by destruct run.
Qed.

Lemma shorten_id_or_class_witness :
  shorten_selector_for_name (lit "  #btn-primary > span ")
  = lit "#btn-primary".
Proof.
  apply (shorten_id_or_class (lit "  #btn-primary > span ") 35
           (lit "btn-primary") (lit " > span"));
    [reflexivity | by left | done | reflexivity | reflexivity].
Defined.

(** The examples the function's documentation gives. *)
Example shorten_selector_documented_examples :
  shorten_selector_for_name (lit "#btn-primary > span") = lit "#btn-primary"
  ∧ shorten_selector_for_name (lit ".card .title") = lit ".card"
  ∧ shorten_selector_for_name (lit "[data-test='submit']")
    = lit "[data-test='submit']"
  ∧ shorten_selector_for_name (lit "div[role=button]")
    = lit "div[role=button]"
  ∧ shorten_selector_for_name (lit "") = lit "".
Proof. by vm_compute. Qed.
End Selector.

(** ** The builder: the steps it adds and the flows it saves *)
Section BuilderFlows.
Import JsonRunner RunnerAux Builder Examples.
Implicit Types argv : list pystr.
Implicit Types env : gmap pystr pystr.

(** Comparisons of two literals are settled by computation. *)
Ltac lit_eqb :=
  repeat match goal with
    | |- context [str_eqb (lit ?a) (lit ?b)] =>
        let v := eval vm_compute in (str_eqb (lit a) (lit b)) in
        change (str_eqb (lit a) (lit b)) with v
    | |- context [key_eqb (PStr (lit ?a)) (PStr (lit ?b))] =>
        let v := eval vm_compute in (key_eqb (PStr (lit a)) (PStr (lit b))) in
        change (key_eqb (PStr (lit a)) (PStr (lit b))) with v
    | |- context [bool_decide (lit ?a = lit ?b)] =>
        let v := eval vm_compute in (bool_decide (lit a = lit b)) in
        change (bool_decide (lit a = lit b)) with v
    end.

Lemma str_truthy_nonempty (s : pystr) :
  str_truthy s = true → is_nonempty_str (Some (PStr s)) = true.
Proof. by destruct s. Qed.

(** X20: the builder checks the target and the value of a step, not its
    timeout.  For one of the four actions of the form, the step it adds
    carries the number read from the timeout field, or 40 when the field
    is blank or is no number, and satisfies the step schema exactly when
    that number is positive.  The field is ASCII text of at most 640
    characters, which [int_of_str] reads as [int] does. *)
Theorem builder_step_schema has_error_var
    (action_var target_var value_var timeout_var : pystr) step :
  strip action_var ∈ [lit "navigate"; lit "click"; lit "fill"; lit "wait"] →
  is_ascii timeout_var = true →
  (length timeout_var ≤ 640)%nat →
  builder_add_step has_error_var action_var target_var value_var timeout_var
  = Added step →
  let t := default 40%Z (int_of_str (strip timeout_var)) in
  dict_get step (PStr (lit "timeout")) = Some (PInt t)
  ∧ dict_get step (PStr (lit "critical")) = Some (PBool true)
  ∧ spec_step_valid step = (0 <? t)%Z.
Proof.
  intros Haction _ _. unfold builder_add_step.
  set (timeout := strip timeout_var).
  assert ((if str_truthy timeout then default 40%Z (int_of_str timeout)
           else 40%Z) = default 40%Z (int_of_str timeout)) as ->
    by (by destruct timeout).
  set (t := default 40%Z (int_of_str timeout)).
  set (target := strip target_var). set (value := strip value_var).
  set (short := shorten_selector_for_name target).
  repeat (apply elem_of_cons in Haction as [-> | Haction]);
    [| | | | by apply elem_of_nil in Haction]; lit_eqb; cbn [andb orb negb].
  all: destruct (str_truthy target) eqn:Ht; cbn [negb andb]; [|by unfold refuse].
  all: try (destruct (str_truthy value) eqn:Hv; cbn [negb andb];
            [|by unfold refuse]).
  all: intros [= <-]; cbn [dict_set dict_get]; lit_eqb; cbn [dict_set dict_get].
  all: unfold spec_step_valid; cbn [dict_get]; lit_eqb; cbn [dict_get];
    lit_eqb; cbn [orb andb].
  all: rewrite ?(str_truthy_nonempty _ Ht), ?(str_truthy_nonempty _ Hv).
  all: done.
Qed.

(** The form accepts a timeout of zero: the step is added and breaks
    the schema. *)
Lemma builder_step_schema_witness :
  ∃ step,
    builder_add_step true (lit "fill") (lit " #email ") (lit "$EMAIL")
      (lit "0") = Added step
    ∧ dict_get step (PStr (lit "timeout")) = Some (PInt 0)
    ∧ spec_step_valid step = false.
Proof.
  assert (∃ step, builder_add_step true (lit "fill") (lit " #email ")
                    (lit "$EMAIL") (lit "0") = Added step) as [step E]
    by (eexists; vm_compute; reflexivity).
  exists step. split; [exact E|].
  destruct (builder_step_schema true (lit "fill") (lit " #email ")
              (lit "$EMAIL") (lit "0") step) as (Ht & _ & Hv);
    [ | reflexivity | simpl; lia | exact E | ].
  - assert (strip (lit "fill") = lit "fill") as -> by reflexivity.
    set_solver.
  - rewrite Ht, Hv. split; vm_compute; reflexivity.
Defined.

(** X19: a flow the builder saves is one the runner loads.  Whatever
    project identifier and environment the runner is started with, it
    reaches the engine with the steps of the builder, tokens resolved,
    and with the builder's project as the name of the configuration. *)
Theorem saved_flow_loads has_error_var (project_var flow_var : pystr)
    (steps : list pydict) project flow flow_obj argv env :
  builder_save_flow has_error_var project_var flow_var steps
  = Saved project flow flow_obj →
  (2 ≤ length argv)%nat →
  project = strip project_var ∧ project ≠ [] ∧ steps ≠ []
  ∧ ∃ cfg,
      main argv env (PDict flow_obj)
      = RunEngine cfg (resolve_tokens cfg <$> steps)
      ∧ dict_get cfg (PStr (lit "name")) = Some (PStr project).
Proof.
  unfold builder_save_flow. intros Hsave Hargv.
  destruct (str_truthy (strip project_var)) eqn:Hp; [|done].
  destruct (str_truthy (strip flow_var)) eqn:Hf; [|done].
  cbn [negb orb] in Hsave.
  destruct steps as [|st steps]; [done|]. injection Hsave as <- <- <-.
  split; [done|]. split; [by destruct (strip project_var)|]. split; [done|].
  set (project := strip project_var).
  set (data := [ (PStr (lit "PROJECT_CONFIG"),
                  PDict [(PStr (lit "name"), PStr project)]);
                 (PStr (lit "TEST_STEPS"), PList (PDict <$> st :: steps)) ]).
  set (n := if decide (project_name_of argv env = []) then project
            else project_name_of argv env).
  destruct (load_project_config_any_name data
              [(PStr (lit "name"), PStr project)]
              (project_name_of argv env) env n)
    as (cfg & Hcfg & Hname & _); [reflexivity | |].
  { unfold n. destruct (decide (project_name_of argv env = [])) as [E|E];
      [right | left]; split; try done.
    left. reflexivity. }
  exists cfg. split; [|exact Hname].
  by apply main_runs_engine.
Qed.

Lemma saved_flow_loads_witness :
  ∃ cfg,
    main argv_my_shop scenario_b_env
      (PDict [ (PStr (lit "PROJECT_CONFIG"),
                PDict [(PStr (lit "name"), PStr (lit "acme"))]);
               (PStr (lit "TEST_STEPS"), PList (PDict <$> scenario_b_steps)) ])
    = RunEngine cfg (resolve_tokens cfg <$> scenario_b_steps)
    ∧ dict_get cfg (PStr (lit "name")) = Some (PStr (lit "acme")).
Proof.
  destruct (saved_flow_loads true (lit " acme ") (lit "login")
              scenario_b_steps (lit "acme") (lit "login") _
              argv_my_shop scenario_b_env eq_refl)
    as (_ & _ & _ & cfg & Hmain & Hname); [simpl; lia|].
  by exists cfg.
Defined.
End BuilderFlows.
